(** * TaskAttemptFinishedEvent: the recovery/history event and its codec

    A shallow embedding of [org.apache.tez.dag.history.events.
    TaskAttemptFinishedEvent]: the event object, its two constructors, its
    getters, [toProto]/[fromProto] and the stream variants
    [toProtoStream]/[fromProtoStream].

    Java references are [option] ([None] is [null]), [long] and [int] are
    [Z], a thrown exception is [Throw], and a method that assigns fields of
    [this] takes the object and returns the updated one; when it throws, the
    partly assigned object is not handed on.

    The classes the event imports are not part of the sources at hand.  The
    identifiers, counters, enums and their converters are parameters
    ([Collaborators]), and so are the generated serializer and parser of the
    message body ([GeneratedCodec]); the length-delimited framing of the
    protobuf runtime is written out.  The Writer, the Reader's skip and the
    Reconstructor exist in the specification only and are modelled from it.
    The file ends with the properties: first general lemmas, then one
    section per claim. *)

From Stdlib Require Import ZArith List String Ascii Bool Lia.
From Stdlib Require Import DecimalString.
Import ListNotations.

Local Open Scope Z_scope.

(** ** Exceptions and the error monad *)

Inductive exn : Type :=
| NullPointerException
| ArrayIndexOutOfBoundsException (index : Z)
| IllegalArgumentException (msg : string)
| IOException (msg : string)
| InvalidProtocolBufferException (msg : string).

Inductive result (A : Type) : Type :=
| Ok (a : A)
| Throw (e : exn).

Arguments Ok {A} a.
Arguments Throw {A} e.

Definition bind {A B : Type} (c : result A) (k : A -> result B) : result B :=
  match c with
  | Ok a => k a
  | Throw e => Throw e
  end.

Notation "x <- c ;; k" := (bind c (fun x => k))
  (at level 61, c at next level, right associativity).

(** [for (X x : xs) { ... f(x) ... }] collecting the results in order; the
    first exception leaves the loop. *)
Fixpoint forEach {A B : Type} (f : A -> result B) (xs : list A) : result (list B) :=
  match xs with
  | [] => Ok []
  | x :: rest =>
      y <- f x ;;
      ys <- forEach f rest ;;
      Ok (y :: ys)
  end.

(** Dereferencing: [x.m()] on a [null] receiver. *)
Definition deref {A : Type} (x : option A) : result A :=
  match x with
  | Some a => Ok a
  | None => Throw NullPointerException
  end.

Definition isSome {A : Type} (x : option A) : bool :=
  match x with
  | Some _ => true
  | None => false
  end.

(** ** Java enums

    [values()], [ordinal()], [name()] and [valueOf(String)] of an [enum]
    type.  The declarations of [TaskAttemptState],
    [TaskAttemptTerminationCause] and [HistoryEventType] are not part of the
    sources at hand, so the event is modelled over any enum. *)

Class JavaEnum (E : Type) : Type := {
  values : list E;
  ordinal : E -> nat;
  name : E -> string;
  values_ordinal : forall c, nth_error values (ordinal c) = Some c;
  names_distinct : NoDup (map name values)
}.

(** [E.values()[i]] *)
Definition values_at {E : Type} `{JavaEnum E} (i : Z) : result E :=
  if i <? 0 then Throw (ArrayIndexOutOfBoundsException i)
  else match nth_error values (Z.to_nat i) with
       | Some c => Ok c
       | None => Throw (ArrayIndexOutOfBoundsException i)
       end.

(** [E.valueOf(s)] *)
Definition valueOf {E : Type} `{JavaEnum E} (s : string) : result E :=
  match find (fun c => String.eqb (name c) s) values with
  | Some c => Ok c
  | None => Throw (IllegalArgumentException ("No enum constant " ++ s)%string)
  end.

(** ** Streams and the protobuf runtime

    A byte is a [Z] in [0, 256).  An [OutputStream] is the list of bytes
    written so far, an [InputStream] the list of bytes not yet read.

    [writeRawVarint32], [readRawVarint32], [writeDelimitedTo] and
    [parseDelimitedFrom] belong to the protobuf runtime the generated
    message class inherits from; they are modelled after that runtime: a
    delimited message is its size as a base-128 varint followed by that many
    bytes. *)

Definition OutputStream : Type := list Z.
Definition InputStream : Type := list Z.

(** A Java [int]: the value wrapped into [-2^31, 2^31). *)
Definition int32 (z : Z) : Z := (z + 2 ^ 31) mod 2 ^ 32 - 2 ^ 31.

(** The loop of [writeRawVarint32] on the [int] read as unsigned ([>>>=]
    shifts zeros in).  Every turn drops seven bits, so a 32-bit value leaves
    the loop within five turns; [turns] bounds them. *)
Fixpoint writeRawVarint32_loop (turns : nat) (value : Z) : list Z :=
  if Z.land value (Z.lnot 0x7F) =? 0 then [value]
  else match turns with
       | O => []
       | S turns' =>
           Z.lor (Z.land value 0x7F) 0x80
             :: writeRawVarint32_loop turns' (Z.shiftr value 7)
       end.

Definition writeRawVarint32 (value : Z) : list Z :=
  writeRawVarint32_loop 4 (value mod 2 ^ 32).

Definition truncatedMessage : exn :=
  InvalidProtocolBufferException
    "While parsing a protocol message, the input ended unexpectedly in the middle of a field.".

Definition malformedVarint : exn :=
  InvalidProtocolBufferException "CodedInputStream encountered a malformed varint.".

(** The two loops of [readRawVarint32(firstByte, input)]: while
    [offset < 32] a byte contributes seven bits, while [offset < 64] bytes
    are read and dropped, then the varint is malformed. *)
Fixpoint readRawVarint32_loop (offset res : Z) (input : InputStream)
    : result (Z * InputStream) :=
  if offset <? 32 then
    match input with
    | [] => Throw truncatedMessage
    | b :: rest =>
        let res' := int32 (Z.lor res (Z.shiftl (Z.land b 0x7f) offset)) in
        if Z.land b 0x80 =? 0 then Ok (res', rest)
        else readRawVarint32_loop (offset + 7) res' rest
    end
  else if offset <? 64 then
    match input with
    | [] => Throw truncatedMessage
    | b :: rest =>
        if Z.land b 0x80 =? 0 then Ok (res, rest)
        else readRawVarint32_loop (offset + 7) res rest
    end
  else Throw malformedVarint.

Definition readRawVarint32 (firstByte : Z) (input : InputStream)
    : result (Z * InputStream) :=
  if Z.land firstByte 0x80 =? 0 then Ok (firstByte, input)
  else readRawVarint32_loop 7 (Z.land firstByte 0x7f) input.

(** ** Collaborators

    The classes the event imports: identifiers, counters, the embedded
    dependency and event records, their proto counterparts and the
    converters between them.  A converter from a string or a proto may throw
    or return [null]. *)

Class Collaborators : Type := {
  TezTaskAttemptID : Type;
  TezCounters : Type;
  DataEventDependencyInfo : Type;
  TezEvent : Type;
  ContainerId : Type;
  NodeId : Type;
  TaskAttemptState : Type;
  TaskAttemptTerminationCause : Type;
  HistoryEventType : Type;
  TezCountersProto : Type;
  DataEventDependencyInfoProto : Type;
  TezEventProto : Type;

  TaskAttemptState_enum :: JavaEnum TaskAttemptState;
  TaskAttemptTerminationCause_enum :: JavaEnum TaskAttemptTerminationCause;
  HistoryEventType_enum :: JavaEnum HistoryEventType;
  TASK_ATTEMPT_FINISHED : HistoryEventType;

  TezTaskAttemptID_toString : TezTaskAttemptID -> string;
  TezTaskAttemptID_fromString : string -> result (option TezTaskAttemptID);
  ContainerId_toString : ContainerId -> string;
  ConverterUtils_toContainerId : string -> result (option ContainerId);
  NodeId_toString : NodeId -> string;
  ConverterUtils_toNodeId : string -> result (option NodeId);
  convertTezCountersToProto : TezCounters -> result TezCountersProto;
  convertTezCountersFromProto : TezCountersProto -> result (option TezCounters);
  DataEventDependencyInfo_toProto :
    DataEventDependencyInfo -> result DataEventDependencyInfoProto;
  DataEventDependencyInfo_fromProto :
    DataEventDependencyInfoProto -> result DataEventDependencyInfo;
  TezEventUtils_toProto : TezEvent -> result TezEventProto;
  TezEventUtils_fromProto : TezEventProto -> result TezEvent
}.

(** What a round trip needs from the converters: each decoder inverts its
    encoder. *)
Class ConvertersInvert (X : Collaborators) : Prop := {
  fromString_toString : forall id,
    TezTaskAttemptID_fromString (TezTaskAttemptID_toString id) = Ok (Some id);
  toContainerId_toString : forall c,
    ConverterUtils_toContainerId (ContainerId_toString c) = Ok (Some c);
  toNodeId_toString : forall n,
    ConverterUtils_toNodeId (NodeId_toString n) = Ok (Some n);
  countersFromProto_toProto : forall c pc,
    convertTezCountersToProto c = Ok pc ->
    convertTezCountersFromProto pc = Ok (Some c);
  dataEventFromProto_toProto : forall d pd,
    DataEventDependencyInfo_toProto d = Ok pd ->
    DataEventDependencyInfo_fromProto pd = Ok d;
  tezEventFromProto_toProto : forall ev pev,
    TezEventUtils_toProto ev = Ok pev ->
    TezEventUtils_fromProto pev = Ok ev
}.

Section Event.

Context {X : Collaborators}.

(** ** The proto message

    [TaskAttemptFinishedProto] is generated from the recovery [.proto] file;
    its shape is read off the accessors the event uses: [has]/[get]/[set]
    for the singular fields, [get..Count]/[get..List]/[add..] for the two
    repeated ones.  A getter of an unset string or number field returns the
    type's default; for the message-typed [counters] field the pair
    [hasCounters]/[getCounters] is a match on the field. *)

Record TaskAttemptFinishedProto : Type := {
  taskAttemptId_ : option string;
  state_ : option Z;
  creationTime_ : option Z;
  allocationTime_ : option Z;
  startTime_ : option Z;
  finishTime_ : option Z;
  creationCausalTA_ : option string;
  diagnostics_ : option string;
  errorEnum_ : option string;
  counters_ : option TezCountersProto;
  dataEvents_ : list DataEventDependencyInfoProto;
  taGeneratedEvents_ : list TezEventProto;
  containerId_ : option string;
  nodeId_ : option string;
  nodeHttpAddress_ : option string
}.

Definition stringOrDefault (f : option string) : string :=
  match f with Some s => s | None => EmptyString end.

Definition numberOrDefault (f : option Z) : Z :=
  match f with Some z => z | None => 0 end.

Definition proto_getTaskAttemptId p := stringOrDefault (taskAttemptId_ p).
Definition proto_getState p := numberOrDefault (state_ p).
Definition proto_getCreationTime p := numberOrDefault (creationTime_ p).
Definition proto_getAllocationTime p := numberOrDefault (allocationTime_ p).
Definition proto_getStartTime p := numberOrDefault (startTime_ p).
Definition proto_getFinishTime p := numberOrDefault (finishTime_ p).
Definition proto_hasCreationCausalTA p := isSome (creationCausalTA_ p).
Definition proto_getCreationCausalTA p := stringOrDefault (creationCausalTA_ p).
Definition proto_hasDiagnostics p := isSome (diagnostics_ p).
Definition proto_getDiagnostics p := stringOrDefault (diagnostics_ p).
Definition proto_hasErrorEnum p := isSome (errorEnum_ p).
Definition proto_getErrorEnum p := stringOrDefault (errorEnum_ p).
Definition proto_hasCounters p := isSome (counters_ p).
Definition proto_getDataEventsCount p := Z.of_nat (List.length (dataEvents_ p)).
Definition proto_getDataEventsList p := dataEvents_ p.
Definition proto_getTaGeneratedEventsCount p :=
  Z.of_nat (List.length (taGeneratedEvents_ p)).
Definition proto_getTaGeneratedEventsList p := taGeneratedEvents_ p.
Definition proto_hasContainerId p := isSome (containerId_ p).
Definition proto_getContainerId p := stringOrDefault (containerId_ p).
Definition proto_hasNodeId p := isSome (nodeId_ p).
Definition proto_getNodeId p := stringOrDefault (nodeId_ p).
Definition proto_hasNodeHttpAddress p := isSome (nodeHttpAddress_ p).
Definition proto_getNodeHttpAddress p := stringOrDefault (nodeHttpAddress_ p).

(** ** The event *)

Record TaskAttemptFinishedEvent : Type := {
  taskAttemptId : option TezTaskAttemptID;
  vertexName : option string;
  creationTime : Z;
  allocationTime : Z;
  startTime : Z;
  finishTime : Z;
  creationCausalTA : option TezTaskAttemptID;
  state : option TaskAttemptState;
  diagnostics : option string;
  tezCounters : option TezCounters;
  error : option TaskAttemptTerminationCause;
  dataEvents : option (list DataEventDependencyInfo);
  taGeneratedEvents : option (list TezEvent);
  containerId : option ContainerId;
  nodeId : option NodeId;
  inProgressLogsUrl : option string;
  completedLogsUrl : option string;
  nodeHttpAddress : option string
}.

(** The full constructor, arguments in the order of the source. *)
Definition TaskAttemptFinishedEvent_full
    (taId : option TezTaskAttemptID)
    (vertexName' : option string)
    (startTime' finishTime' : Z)
    (state' : option TaskAttemptState)
    (error' : option TaskAttemptTerminationCause)
    (diagnostics' : option string)
    (counters : option TezCounters)
    (dataEvents' : option (list DataEventDependencyInfo))
    (taGeneratedEvents' : option (list TezEvent))
    (creationTime' : Z)
    (creationCausalTA' : option TezTaskAttemptID)
    (allocationTime' : Z)
    (containerId' : option ContainerId)
    (nodeId' : option NodeId)
    (inProgressLogsUrl' completedLogsUrl' nodeHttpAddress' : option string)
    : TaskAttemptFinishedEvent :=
  {| taskAttemptId := taId;
     vertexName := vertexName';
     creationCausalTA := creationCausalTA';
     creationTime := creationTime';
     allocationTime := allocationTime';
     startTime := startTime';
     finishTime := finishTime';
     state := state';
     diagnostics := diagnostics';
     tezCounters := counters;
     error := error';
     dataEvents := dataEvents';
     taGeneratedEvents := taGeneratedEvents';
     containerId := containerId';
     nodeId := nodeId';
     inProgressLogsUrl := inProgressLogsUrl';
     completedLogsUrl := completedLogsUrl';
     nodeHttpAddress := nodeHttpAddress' |}.

(** The empty constructor: every field keeps its default, [null] for a
    reference and [0] for a [long]. *)
Definition TaskAttemptFinishedEvent_empty : TaskAttemptFinishedEvent :=
  {| taskAttemptId := None;
     vertexName := None;
     creationTime := 0;
     allocationTime := 0;
     startTime := 0;
     finishTime := 0;
     creationCausalTA := None;
     state := None;
     diagnostics := None;
     tezCounters := None;
     error := None;
     dataEvents := None;
     taGeneratedEvents := None;
     containerId := None;
     nodeId := None;
     inProgressLogsUrl := None;
     completedLogsUrl := None;
     nodeHttpAddress := None |}.

Definition getEventType (e : TaskAttemptFinishedEvent) : HistoryEventType :=
  TASK_ATTEMPT_FINISHED.
Definition isRecoveryEvent (e : TaskAttemptFinishedEvent) : bool := true.
Definition isHistoryEvent (e : TaskAttemptFinishedEvent) : bool := true.

Definition getDataEvents e := dataEvents e.
Definition getTaskAttemptID e := taskAttemptId e.
Definition getCounters e := tezCounters e.
Definition getDiagnostics e := diagnostics e.
Definition getTaskAttemptError e := error e.
Definition getFinishTime e := finishTime e.
Definition getState e := state e.
Definition getStartTime e := startTime e.
Definition getCreationTime e := creationTime e.
Definition getAllocationTime e := allocationTime e.
Definition getCreationCausalTA e := creationCausalTA e.
Definition getTAGeneratedEvents e := taGeneratedEvents e.
Definition getContainerId e := containerId e.
Definition getNodeId e := nodeId e.
Definition getInProgressLogsUrl e := inProgressLogsUrl e.
Definition getCompletedLogsUrl e := completedLogsUrl e.
Definition getNodeHttpAddress e := nodeHttpAddress e.

(** ** [toProto]

    The builder starts with every field unset; each [set] fills one field and
    each [add] appends to a repeated one.  The steps that can throw are the
    binds, in source order, so the first failing step decides the exception;
    the record at the end is what [build()] returns. *)
Definition toProto (e : TaskAttemptFinishedEvent) : result TaskAttemptFinishedProto :=
  taId <- deref (taskAttemptId e) ;;
  st <- deref (state e) ;;
  counters <- match tezCounters e with
              | Some c => pc <- convertTezCountersToProto c ;; Ok (Some pc)
              | None => Ok None
              end ;;
  infos <- match dataEvents e with
           | Some (info :: more) => forEach DataEventDependencyInfo_toProto (info :: more)
           | Some [] => Ok []
           | None => Ok []
           end ;;
  events <- match taGeneratedEvents e with
            | Some (event :: more) => forEach TezEventUtils_toProto (event :: more)
            | Some [] => Ok []
            | None => Ok []
            end ;;
  Ok {| taskAttemptId_ := Some (TezTaskAttemptID_toString taId);
        state_ := Some (Z.of_nat (ordinal st));
        creationTime_ := Some (creationTime e);
        allocationTime_ := Some (allocationTime e);
        startTime_ := Some (startTime e);
        finishTime_ := Some (finishTime e);
        creationCausalTA_ := option_map TezTaskAttemptID_toString (creationCausalTA e);
        diagnostics_ := diagnostics e;
        errorEnum_ := option_map name (error e);
        counters_ := counters;
        dataEvents_ := infos;
        taGeneratedEvents_ := events;
        containerId_ := option_map ContainerId_toString (containerId e);
        nodeId_ := option_map NodeId_toString (nodeId e);
        nodeHttpAddress_ := nodeHttpAddress e |}.

(** ** [fromProto]

    Assigns the fields of [this] from the message, in source order: the
    conversions that can throw are the binds, the assignments are collected
    in the record at the end.  A field whose [has..] test (or positive
    count) fails is not assigned and keeps the value it had in [this];
    [vertexName] and the two log URLs are never assigned. *)
Definition fromProto (this : TaskAttemptFinishedEvent) (proto : TaskAttemptFinishedProto)
    : result TaskAttemptFinishedEvent :=
  taId <- TezTaskAttemptID_fromString (proto_getTaskAttemptId proto) ;;
  st <- values_at (proto_getState proto) ;;
  causal <- (if proto_hasCreationCausalTA proto
             then TezTaskAttemptID_fromString (proto_getCreationCausalTA proto)
             else Ok (creationCausalTA this)) ;;
  err <- (if proto_hasErrorEnum proto
          then c <- valueOf (proto_getErrorEnum proto) ;; Ok (Some c)
          else Ok (error this)) ;;
  counters <- match counters_ proto with
              | Some pc => convertTezCountersFromProto pc
              | None => Ok (tezCounters this)
              end ;;
  infos <- (if proto_getDataEventsCount proto >? 0
            then l <- forEach DataEventDependencyInfo_fromProto (proto_getDataEventsList proto) ;;
                 Ok (Some l)
            else Ok (dataEvents this)) ;;
  events <- (if proto_getTaGeneratedEventsCount proto >? 0
             then l <- forEach TezEventUtils_fromProto (proto_getTaGeneratedEventsList proto) ;;
                  Ok (Some l)
             else Ok (taGeneratedEvents this)) ;;
  container <- (if proto_hasContainerId proto
                then ConverterUtils_toContainerId (proto_getContainerId proto)
                else Ok (containerId this)) ;;
  node <- (if proto_hasNodeId proto
           then ConverterUtils_toNodeId (proto_getNodeId proto)
           else Ok (nodeId this)) ;;
  Ok {| taskAttemptId := taId;
        vertexName := vertexName this;
        creationTime := proto_getCreationTime proto;
        allocationTime := proto_getAllocationTime proto;
        startTime := proto_getStartTime proto;
        finishTime := proto_getFinishTime proto;
        creationCausalTA := causal;
        state := Some st;
        diagnostics := if proto_hasDiagnostics proto
                       then Some (proto_getDiagnostics proto)
                       else diagnostics this;
        tezCounters := counters;
        error := err;
        dataEvents := infos;
        taGeneratedEvents := events;
        containerId := container;
        nodeId := node;
        inProgressLogsUrl := inProgressLogsUrl this;
        completedLogsUrl := completedLogsUrl this;
        nodeHttpAddress := if proto_hasNodeHttpAddress proto
                           then Some (proto_getNodeHttpAddress proto)
                           else nodeHttpAddress this |}.

(** ** The stream variants

    The serializer and the parser of the message body are generated code;
    the stream methods are modelled over any such pair. *)

Class GeneratedCodec : Type := {
  toByteArray : TaskAttemptFinishedProto -> list Z;
  parseFrom : list Z -> result TaskAttemptFinishedProto
}.

Context {G : GeneratedCodec}.

Definition getSerializedSize (proto : TaskAttemptFinishedProto) : Z :=
  Z.of_nat (List.length (toByteArray proto)).

(** [proto.writeDelimitedTo(output)] *)
Definition writeDelimitedTo (proto : TaskAttemptFinishedProto) (output : OutputStream)
    : OutputStream :=
  output ++ writeRawVarint32 (getSerializedSize proto) ++ toByteArray proto.

(** [TaskAttemptFinishedProto.parseDelimitedFrom(input)]: [null] at the end
    of the stream, otherwise the size and then the message parsed from the
    next [size] bytes (fewer when the stream ends before). *)
Definition parseDelimitedFrom (input : InputStream)
    : result (option (TaskAttemptFinishedProto * InputStream)) :=
  match input with
  | [] => Ok None
  | firstByte :: rest =>
      sized <- readRawVarint32 firstByte rest ;;
      let size := Z.to_nat (fst sized) in
      proto <- parseFrom (firstn size (snd sized)) ;;
      Ok (Some (proto, skipn size (snd sized)))
  end.

(** [toProtoStream(outputStream)]: the outcome and the stream afterwards. *)
Definition toProtoStream (e : TaskAttemptFinishedEvent) (outputStream : OutputStream)
    : result unit * OutputStream :=
  match toProto e with
  | Ok proto => (Ok tt, writeDelimitedTo proto outputStream)
  | Throw ex => (Throw ex, outputStream)
  end.

(** [fromProtoStream(inputStream)]: the updated event and the rest of the
    stream. *)
Definition fromProtoStream (this : TaskAttemptFinishedEvent) (inputStream : InputStream)
    : result (TaskAttemptFinishedEvent * InputStream) :=
  parsed <- parseDelimitedFrom inputStream ;;
  match parsed with
  | None => Throw (IOException "No data found in stream")
  | Some (proto, rest) =>
      e <- fromProto this proto ;;
      Ok (e, rest)
  end.

(** What a stream round trip needs from the generated code: the parser reads
    back what the serializer wrote. *)
Class ParserInverts : Prop := {
  parseFrom_toByteArray : forall proto, parseFrom (toByteArray proto) = Ok proto
}.

(** ** The Writer and the Reader's skip *)

(** Modelled from the spec: the Writer is not among the sources.
    [append(event)] encodes, then writes one frame
    [[tag: small int][length: int][payload]]; the tag is the event type, the
    length and the payload are the event's own length-delimited stream
    encoding.  An encoding error is fatal to the call and never reaches the
    log. *)
Definition Writer_append (log : OutputStream) (e : TaskAttemptFinishedEvent)
    : result unit * OutputStream :=
  match toProto e with
  | Ok proto =>
      (Ok tt, writeDelimitedTo proto (log ++ [Z.of_nat (ordinal (getEventType e))]))
  | Throw ex => (Throw ex, log)
  end.

(** Modelled from the spec: the Reader is not among the sources.  On a tag
    it does not know, it uses the frame's self-describing length to skip the
    payload: the tag, the rest of the stream after the frame. *)
Definition Reader_skip (input : InputStream) : result (option (Z * InputStream)) :=
  match input with
  | [] => Ok None
  | tag :: [] => Throw truncatedMessage
  | tag :: firstByte :: rest =>
      sized <- readRawVarint32 firstByte rest ;;
      let size := Z.to_nat (fst sized) in
      if (List.length (snd sized) <? size)%nat then Throw truncatedMessage
      else Ok (Some (tag, skipn size (snd sized)))
  end.

End Event.

(** ** [toString]

    The text form of the event.  [TaskAttemptState.SUCCEEDED] and
    [TezCounters.toString()] come with the imported classes. *)

Class Printers (X : Collaborators) : Type := {
  TaskAttemptState_SUCCEEDED : TaskAttemptState;
  TezCounters_toString : TezCounters -> string
}.

(** A Java [long]: the value wrapped into [-2^63, 2^63). *)
Definition int64 (z : Z) : Z := (z + 2 ^ 63) mod 2 ^ 64 - 2 ^ 63.

(** A [long] in a string concatenation: its decimal digits, with a minus
    sign when negative. *)
Definition Long_toString (z : Z) : string := NilZero.string_of_int (Z.to_int z).

(** A reference in a string concatenation: ["null"] for [null]. *)
Definition stringValueOf {A : Type} (toString : A -> string) (x : option A) : string :=
  match x with
  | Some a => toString a
  | None => "null"%string
  end.

(** The characters the pattern [\s] takes: space, tab, line feed, vertical
    tab, form feed and carriage return. *)
Definition isWhitespace (c : ascii) : bool :=
  let n := nat_of_ascii c in
  ((n =? 32) || (n =? 9) || (n =? 10) || (n =? 11) || (n =? 12) || (n =? 13))%nat.

(** [s.replaceAll("\\n", ", ")] *)
Fixpoint replaceAll_newline (s : string) : string :=
  match s with
  | EmptyString => EmptyString
  | String c s' =>
      if (nat_of_ascii c =? 10)%nat
      then String "," (String " " (replaceAll_newline s'))
      else String c (replaceAll_newline s')
  end.

(** [s.replaceAll("\\s+", " ")]: every longest run of whitespace becomes one
    space; [inRun] tells that the run the next character would belong to has
    been replaced already. *)
Fixpoint replaceAll_whitespace_run (inRun : bool) (s : string) : string :=
  match s with
  | EmptyString => EmptyString
  | String c s' =>
      if isWhitespace c
      then if inRun then replaceAll_whitespace_run true s'
           else String " " (replaceAll_whitespace_run true s')
      else String c (replaceAll_whitespace_run false s')
  end.

Definition replaceAll_whitespace (s : string) : string :=
  replaceAll_whitespace_run false s.

Section Printing.

Context {X : Collaborators} {P : Printers X}.

(** [state != TaskAttemptState.SUCCEEDED]: enum constants are compared as
    references, and a constant is the one with its ordinal. *)
Definition isNotSucceeded (st : option TaskAttemptState) : bool :=
  match st with
  | Some s => negb (ordinal s =? ordinal TaskAttemptState_SUCCEEDED)%nat
  | None => true
  end.

Definition toString (e : TaskAttemptFinishedEvent) : result string :=
  let counterStr :=
    if isNotSucceeded (state e)
    then (", counters="
          ++ match tezCounters e with
             | None => "null"
             | Some c =>
                 replaceAll_whitespace (replaceAll_newline (TezCounters_toString c))
             end)%string
    else EmptyString in
  st <- deref (state e) ;;
  Ok ("vertexName=" ++ stringValueOf (fun s => s) (vertexName e)
      ++ ", taskAttemptId=" ++ stringValueOf TezTaskAttemptID_toString (taskAttemptId e)
      ++ ", creationTime=" ++ Long_toString (creationTime e)
      ++ ", allocationTime=" ++ Long_toString (allocationTime e)
      ++ ", startTime=" ++ Long_toString (startTime e)
      ++ ", finishTime=" ++ Long_toString (finishTime e)
      ++ ", timeTaken=" ++ Long_toString (int64 (finishTime e - startTime e))
      ++ ", status=" ++ name st
      ++ ", errorEnum=" ++ match error e with Some c => name c | None => "" end
      ++ ", diagnostics=" ++ stringValueOf (fun s => s) (diagnostics e)
      ++ ", containerId="
      ++ match containerId e with Some c => ContainerId_toString c | None => "" end
      ++ ", nodeId=" ++ match nodeId e with Some n => NodeId_toString n | None => "" end
      ++ ", nodeHttpAddress=" ++ match nodeHttpAddress e with Some a => a | None => "" end
      ++ counterStr)%string.

End Printing.

(** ** The Reconstructor *)

(** Modelled from the spec: the replay state machine is not among the
    sources.  Per-entity states UNSEEN, CREATED, RUNNING and
    TERMINAL(success|failed|killed); the transition is driven by the type of
    the event folded in.  An event inconsistent with the current state is a
    recoverable anomaly: the missing intermediate state is synthesized and
    flagged.  A started attempt that sees [Finished] becomes terminal with
    the duration [finish - start]; a terminal entity is left as it is. *)
Inductive TerminalState : Type := SUCCEEDED | FAILED | KILLED.

Inductive EntityPhase : Type :=
| UNSEEN
| CREATED
| RUNNING
| TERMINAL (outcome : TerminalState).

Inductive ReplayEvent : Type :=
| Started (start : Z)
| Finished (start finish : Z) (outcome : TerminalState).

Record EntityState : Type := {
  phase : EntityPhase;
  duration : option Z;
  missingCreated : bool;
  missingRunning : bool
}.

Definition unseen : EntityState :=
  {| phase := UNSEEN; duration := None;
     missingCreated := false; missingRunning := false |}.

Definition apply (s : EntityState) (ev : ReplayEvent) : EntityState :=
  match ev with
  | Started _ =>
      match phase s with
      | UNSEEN | CREATED =>
          {| phase := RUNNING; duration := duration s;
             missingCreated := missingCreated s;
             missingRunning := missingRunning s |}
      | RUNNING | TERMINAL _ => s
      end
  | Finished start finish outcome =>
      match phase s with
      | UNSEEN =>
          {| phase := TERMINAL outcome; duration := Some (finish - start);
             missingCreated := true;
             missingRunning := missingRunning s |}
      | CREATED =>
          {| phase := TERMINAL outcome; duration := Some (finish - start);
             missingCreated := missingCreated s;
             missingRunning := true |}
      | RUNNING =>
          {| phase := TERMINAL outcome; duration := Some (finish - start);
             missingCreated := missingCreated s;
             missingRunning := missingRunning s |}
      | TERMINAL _ => s
      end
  end.

Definition replay (events : list ReplayEvent) : EntityState :=
  fold_left apply events unseen.

(** ** An instance to run the definitions on

    Concrete collaborators for evaluating the event on explicit inputs:
    identifiers in their stable string form, integer stand-ins for the
    counters and the embedded records, and a byte codec for the message. *)

Module Example.

(** Modelled from the spec: the terminal state is a closed enum
    SUCCEEDED/FAILED/KILLED (the declaration of [TaskAttemptState] is not
    among the sources). *)
Definition TerminalState_enum : JavaEnum TerminalState.
Proof.
  refine {| values := [SUCCEEDED; FAILED; KILLED];
            ordinal := fun c =>
              match c with SUCCEEDED => 0 | FAILED => 1 | KILLED => 2 end%nat;
            name := fun c =>
              match c with
              | SUCCEEDED => "SUCCEEDED" | FAILED => "FAILED" | KILLED => "KILLED"
              end%string |}.
  - intros []; reflexivity.
  - repeat constructor; simpl; intuition discriminate.
Defined.

Inductive TerminationCause : Type :=
| TERMINATED_BY_CLIENT
| CONTAINER_EXITED
| UNKNOWN_ERROR.

Definition TerminationCause_enum : JavaEnum TerminationCause.
Proof.
  refine {| values := [TERMINATED_BY_CLIENT; CONTAINER_EXITED; UNKNOWN_ERROR];
            ordinal := fun c =>
              match c with
              | TERMINATED_BY_CLIENT => 0 | CONTAINER_EXITED => 1 | UNKNOWN_ERROR => 2
              end%nat;
            name := fun c =>
              match c with
              | TERMINATED_BY_CLIENT => "TERMINATED_BY_CLIENT"
              | CONTAINER_EXITED => "CONTAINER_EXITED"
              | UNKNOWN_ERROR => "UNKNOWN_ERROR"
              end%string |}.
  - intros []; reflexivity.
  - repeat constructor; simpl; intuition discriminate.
Defined.

Inductive EventType : Type :=
| ATTEMPT_STARTED
| ATTEMPT_FINISHED.

Definition EventType_enum : JavaEnum EventType.
Proof.
  refine {| values := [ATTEMPT_STARTED; ATTEMPT_FINISHED];
            ordinal := fun c =>
              match c with ATTEMPT_STARTED => 0 | ATTEMPT_FINISHED => 1 end%nat;
            name := fun c =>
              match c with
              | ATTEMPT_STARTED => "TASK_ATTEMPT_STARTED"
              | ATTEMPT_FINISHED => "TASK_ATTEMPT_FINISHED"
              end%string |}.
  - intros []; reflexivity.
  - repeat constructor; simpl; intuition discriminate.
Defined.

Definition collaborators : Collaborators :=
  {| TezTaskAttemptID := string;
     TezCounters := Z;
     DataEventDependencyInfo := Z;
     TezEvent := Z;
     ContainerId := string;
     NodeId := string;
     TaskAttemptState := TerminalState;
     TaskAttemptTerminationCause := TerminationCause;
     HistoryEventType := EventType;
     TezCountersProto := Z;
     DataEventDependencyInfoProto := Z;
     TezEventProto := Z;
     TaskAttemptState_enum := TerminalState_enum;
     TaskAttemptTerminationCause_enum := TerminationCause_enum;
     HistoryEventType_enum := EventType_enum;
     TASK_ATTEMPT_FINISHED := ATTEMPT_FINISHED;
     TezTaskAttemptID_toString := fun id => id;
     TezTaskAttemptID_fromString := fun s => Ok (Some s);
     ContainerId_toString := fun c => c;
     ConverterUtils_toContainerId := fun s => Ok (Some s);
     NodeId_toString := fun n => n;
     ConverterUtils_toNodeId := fun s => Ok (Some s);
     convertTezCountersToProto := fun c => Ok c;
     convertTezCountersFromProto := fun pc => Ok (Some pc);
     DataEventDependencyInfo_toProto := fun d => Ok d;
     DataEventDependencyInfo_fromProto := fun pd => Ok pd;
     TezEventUtils_toProto := fun ev => Ok ev;
     TezEventUtils_fromProto := fun pev => Ok pev |}.

(** *** A byte codec for the message

    Modelled from the spec: the payload of a frame is
    [[field-presence bitmap][field payloads in fixed declared order]] (the
    generated serializer is not among the sources).  The bitmap takes two
    bytes, one bit per declared field; a number is written as a sign byte
    and its binary digits, a string as its length and its characters, a
    repeated field as its count and its entries.  A parser ignores what
    follows the declared fields. *)

Fixpoint writePositive (p : positive) : list Z :=
  match p with
  | xH => [1]
  | xO q => 2 :: writePositive q
  | xI q => 3 :: writePositive q
  end.

Fixpoint readPositive (input : list Z) : result (positive * list Z) :=
  match input with
  | [] => Throw truncatedMessage
  | b :: rest =>
      if b =? 1 then Ok (xH, rest)
      else if b =? 2 then r <- readPositive rest ;; Ok (xO (fst r), snd r)
      else if b =? 3 then r <- readPositive rest ;; Ok (xI (fst r), snd r)
      else Throw malformedVarint
  end.

Definition writeNumber (z : Z) : list Z :=
  match z with
  | Z0 => [0]
  | Zpos p => 1 :: writePositive p
  | Zneg p => 2 :: writePositive p
  end.

Definition readNumber (input : list Z) : result (Z * list Z) :=
  match input with
  | [] => Throw truncatedMessage
  | b :: rest =>
      if b =? 0 then Ok (0, rest)
      else if b =? 1 then r <- readPositive rest ;; Ok (Zpos (fst r), snd r)
      else if b =? 2 then r <- readPositive rest ;; Ok (Zneg (fst r), snd r)
      else Throw malformedVarint
  end.

Definition byteOfAscii (c : Ascii.ascii) : Z := Z.of_N (Ascii.N_of_ascii c).
Definition asciiOfByte (b : Z) : Ascii.ascii := Ascii.ascii_of_N (Z.to_N b).

Fixpoint writeChars (s : string) : list Z :=
  match s with
  | EmptyString => []
  | String c s' => byteOfAscii c :: writeChars s'
  end.

Fixpoint readChars (n : nat) (input : list Z) : result (string * list Z) :=
  match n with
  | O => Ok (EmptyString, input)
  | S n' =>
      match input with
      | [] => Throw truncatedMessage
      | b :: rest => r <- readChars n' rest ;; Ok (String (asciiOfByte b) (fst r), snd r)
      end
  end.

Definition writeText (s : string) : list Z :=
  writeNumber (Z.of_nat (String.length s)) ++ writeChars s.

Definition readText (input : list Z) : result (string * list Z) :=
  n <- readNumber input ;;
  readChars (Z.to_nat (fst n)) (snd n).

Fixpoint writeEntries (l : list Z) : list Z :=
  match l with
  | [] => []
  | x :: l' => writeNumber x ++ writeEntries l'
  end.

Fixpoint readEntries (n : nat) (input : list Z) : result (list Z * list Z) :=
  match n with
  | O => Ok ([], input)
  | S n' =>
      x <- readNumber input ;;
      r <- readEntries n' (snd x) ;;
      Ok (fst x :: fst r, snd r)
  end.

Definition writeOptional {A : Type} (put : A -> list Z) (field : option A) : list Z :=
  match field with
  | Some v => put v
  | None => []
  end.

Definition readOptional {A : Type} (present : bool)
    (get : list Z -> result (A * list Z)) (input : list Z)
    : result (option A * list Z) :=
  if present then r <- get input ;; Ok (Some (fst r), snd r)
  else Ok (None, input).

Definition writeRepeated (field : list Z) : list Z :=
  match field with
  | [] => []
  | _ :: _ => writeNumber (Z.of_nat (List.length field)) ++ writeEntries field
  end.

Definition readRepeated (present : bool) (input : list Z) : result (list Z * list Z) :=
  if present then n <- readNumber input ;; readEntries (Z.to_nat (fst n)) (snd n)
  else Ok ([], input).

Definition nonEmpty {A : Type} (l : list A) : bool :=
  match l with
  | [] => false
  | _ :: _ => true
  end.

Fixpoint packBits (bits : list bool) : Z :=
  match bits with
  | [] => 0
  | b :: bits' => (if b then 1 else 0) + 2 * packBits bits'
  end.

Definition presenceBitmap (p : TaskAttemptFinishedProto (X := collaborators)) : list Z :=
  [ packBits [ isSome (taskAttemptId_ p); isSome (state_ p);
               isSome (creationTime_ p); isSome (allocationTime_ p);
               isSome (startTime_ p); isSome (finishTime_ p);
               isSome (creationCausalTA_ p); isSome (diagnostics_ p) ];
    packBits [ isSome (errorEnum_ p); isSome (counters_ p);
               nonEmpty (dataEvents_ p); nonEmpty (taGeneratedEvents_ p);
               isSome (containerId_ p); isSome (nodeId_ p);
               isSome (nodeHttpAddress_ p) ] ].

Definition fieldPayloads (p : TaskAttemptFinishedProto (X := collaborators)) : list Z :=
  writeOptional writeText (taskAttemptId_ p)
  ++ writeOptional writeNumber (state_ p)
  ++ writeOptional writeNumber (creationTime_ p)
  ++ writeOptional writeNumber (allocationTime_ p)
  ++ writeOptional writeNumber (startTime_ p)
  ++ writeOptional writeNumber (finishTime_ p)
  ++ writeOptional writeText (creationCausalTA_ p)
  ++ writeOptional writeText (diagnostics_ p)
  ++ writeOptional writeText (errorEnum_ p)
  ++ writeOptional writeNumber (counters_ p)
  ++ writeRepeated (dataEvents_ p)
  ++ writeRepeated (taGeneratedEvents_ p)
  ++ writeOptional writeText (containerId_ p)
  ++ writeOptional writeText (nodeId_ p)
  ++ writeOptional writeText (nodeHttpAddress_ p).

Definition serialize (p : TaskAttemptFinishedProto (X := collaborators)) : list Z :=
  presenceBitmap p ++ fieldPayloads p.

Definition parse (input : list Z)
    : result (TaskAttemptFinishedProto (X := collaborators)) :=
  match input with
  | low :: high :: payloads =>
      taId <- readOptional (Z.testbit low 0) readText payloads ;;
      st <- readOptional (Z.testbit low 1) readNumber (snd taId) ;;
      creation <- readOptional (Z.testbit low 2) readNumber (snd st) ;;
      allocation <- readOptional (Z.testbit low 3) readNumber (snd creation) ;;
      start <- readOptional (Z.testbit low 4) readNumber (snd allocation) ;;
      finish <- readOptional (Z.testbit low 5) readNumber (snd start) ;;
      causal <- readOptional (Z.testbit low 6) readText (snd finish) ;;
      diag <- readOptional (Z.testbit low 7) readText (snd causal) ;;
      err <- readOptional (Z.testbit high 0) readText (snd diag) ;;
      counters <- readOptional (Z.testbit high 1) readNumber (snd err) ;;
      infos <- readRepeated (Z.testbit high 2) (snd counters) ;;
      events <- readRepeated (Z.testbit high 3) (snd infos) ;;
      container <- readOptional (Z.testbit high 4) readText (snd events) ;;
      node <- readOptional (Z.testbit high 5) readText (snd container) ;;
      http <- readOptional (Z.testbit high 6) readText (snd node) ;;
      Ok (Build_TaskAttemptFinishedProto (X := collaborators)
            (fst taId) (fst st) (fst creation) (fst allocation) (fst start)
            (fst finish) (fst causal) (fst diag) (fst err) (fst counters)
            (fst infos) (fst events) (fst container) (fst node) (fst http))
  | _ => Throw truncatedMessage
  end.

Definition codec : GeneratedCodec (X := collaborators) :=
  {| toByteArray := serialize; parseFrom := parse |}.

(** *** Sample events and messages *)

(** An event from the full constructor with every argument given; the list
    of generated events is present but empty. *)
Definition finishedAttempt : TaskAttemptFinishedEvent (X := collaborators) :=
  TaskAttemptFinishedEvent_full (X := collaborators)
    (Some "attempt_1_1_0_0_0"%string) (Some "Map 1"%string) 100 150
    (Some FAILED) (Some CONTAINER_EXITED) (Some "container lost"%string) (Some 7)
    (Some [1; 2]) (Some []) 10 (Some "attempt_1_1_0_0_1"%string) 50
    (Some "container_1"%string) (Some "node:1"%string)
    (Some "http://node:1/running"%string) (Some "http://node:1/done"%string)
    (Some "node:8042"%string).

(** An event whose fields are all absent except the task attempt id and the
    state; its four timestamps are what the empty constructor leaves. *)
Definition bareAttempt : TaskAttemptFinishedEvent (X := collaborators) :=
  Build_TaskAttemptFinishedEvent (X := collaborators)
    (Some "attempt_1_1_0_0_0"%string) None
    (creationTime (X := collaborators) TaskAttemptFinishedEvent_empty)
    (allocationTime (X := collaborators) TaskAttemptFinishedEvent_empty)
    (startTime (X := collaborators) TaskAttemptFinishedEvent_empty)
    (finishTime (X := collaborators) TaskAttemptFinishedEvent_empty)
    None (Some SUCCEEDED) None None None None None None None None None None.

(** A message with the given state ordinal, timestamps and error name and
    nothing else but the task attempt id. *)
Definition message (st creation allocation start finish : Z) (err : option string)
    : TaskAttemptFinishedProto (X := collaborators) :=
  Build_TaskAttemptFinishedProto (X := collaborators)
    (Some "attempt_1_1_0_0_0"%string) (Some st) (Some creation) (Some allocation)
    (Some start) (Some finish) None None err None [] [] None None None.

End Example.

(** *** A sample for the text form *)

Module ExampleText.

(** A counters text over several lines, indented by tabs. *)
Definition countersText (c : Z) : string :=
  ("Counters: 1" ++ String "010" (String "009" ("Group" ++ String "010"
     (String "009" (String "009" ("COUNT=" ++ Long_toString c))))))%string.

Definition printers : Printers Example.collaborators :=
  Build_Printers Example.collaborators SUCCEEDED countersText.

End ExampleText.

(** * Properties *)

(** ** The error monad and the loops *)

Lemma bind_Ok {A B : Type} (c : result A) (k : A -> result B) (b : B) :
  bind c k = Ok b -> exists a, c = Ok a /\ k a = Ok b.
Proof.
  destruct c as [a | ex]; simpl; intros Hk.
  - exists a. split; [reflexivity | exact Hk].
  - discriminate Hk.
Qed.

Ltac bind_inv H :=
  let a := fresh "a" in
  let Ha := fresh "Ha" in
  apply bind_Ok in H; destruct H as (a & Ha & H).

Lemma forEach_inverse {A B : Type} (f : A -> result B) (g : B -> result A) :
  (forall x y, f x = Ok y -> g y = Ok x) ->
  forall xs ys, forEach f xs = Ok ys -> forEach g ys = Ok xs.
Proof.
  intros Hinv xs.
  induction xs as [| x xs IH]; simpl; intros ys Hys.
  - injection Hys as <-. reflexivity.
  - bind_inv Hys. bind_inv Hys. injection Hys as <-.
    simpl. rewrite (Hinv _ _ Ha). simpl.
    rewrite (IH _ Ha0). reflexivity.
Qed.

Lemma forEach_length {A B : Type} (f : A -> result B) :
  forall xs ys, forEach f xs = Ok ys -> List.length ys = List.length xs.
Proof.
  induction xs as [| x xs IH]; simpl; intros ys Hys.
  - injection Hys as <-. reflexivity.
  - bind_inv Hys. bind_inv Hys. injection Hys as <-.
    simpl. f_equal. apply IH. exact Ha0.
Qed.

Lemma forEach_returns {A B : Type} (f : A -> result B) :
  (forall x, exists y, f x = Ok y) ->
  forall xs, exists ys, forEach f xs = Ok ys.
Proof.
  intros Hf xs. induction xs as [| x xs [ys IH]]; cbn [forEach].
  - exists []. reflexivity.
  - destruct (Hf x) as [y ->]. cbn [bind]. rewrite IH. cbn [bind].
    exists (y :: ys). reflexivity.
Qed.

(** ** Enums *)

Section Enums.

Context {E : Type} `{JavaEnum E}.

Lemma values_at_ordinal (c : E) : values_at (Z.of_nat (ordinal c)) = Ok c.
Proof.
  unfold values_at.
  destruct (Z.ltb_spec (Z.of_nat (ordinal c)) 0) as [Hneg | _]; [lia |].
  rewrite Nat2Z.id, values_ordinal. reflexivity.
Qed.

Lemma values_at_out_of_range (i : Z) :
  i < 0 \/ Z.of_nat (List.length (values (E := E))) <= i ->
  values_at (E := E) i = Throw (ArrayIndexOutOfBoundsException i).
Proof.
  intros Hrange. unfold values_at.
  destruct (Z.ltb_spec i 0) as [_ | Hpos]; [reflexivity |].
  destruct (nth_error values (Z.to_nat i)) as [c |] eqn:Hnth; [| reflexivity].
  assert (Hlt : (Z.to_nat i < List.length (values (E := E)))%nat).
  { apply nth_error_Some. rewrite Hnth. discriminate. }
  lia.
Qed.

Lemma find_by_name (c : E) (l : list E) :
  NoDup (map name l) -> In c l ->
  find (fun c' => String.eqb (name c') (name c)) l = Some c.
Proof.
  induction l as [| d l IH]; simpl; intros Hnodup Hin; [contradiction |].
  inversion Hnodup as [| ? ? Hnotin Hrest]; subst.
  destruct Hin as [-> | Hin].
  - rewrite String.eqb_refl. reflexivity.
  - destruct (String.eqb_spec (name d) (name c)) as [Heq | _].
    + exfalso. apply Hnotin. rewrite Heq. apply in_map. exact Hin.
    + apply IH; assumption.
Qed.

Lemma valueOf_name (c : E) : valueOf (name c) = Ok c.
Proof.
  unfold valueOf. rewrite find_by_name; [reflexivity | apply names_distinct |].
  eapply nth_error_In. apply values_ordinal.
Qed.

Lemma valueOf_unknown (s : string) :
  (forall c : E, name c <> s) ->
  valueOf (E := E) s = Throw (IllegalArgumentException ("No enum constant " ++ s)%string).
Proof.
  intros Hunknown. unfold valueOf.
  destruct (find _ values) as [c |] eqn:Hfind; [| reflexivity].
  apply find_some in Hfind. destruct Hfind as [_ Heq].
  apply String.eqb_eq in Heq. elim (Hunknown c Heq).
Qed.

End Enums.

(** ** Encoding and decoding the message *)

Section Codec.

Context {X : Collaborators}.

Lemma toProto_null_taskAttemptId (e : TaskAttemptFinishedEvent) :
  taskAttemptId e = None -> toProto e = Throw NullPointerException.
Proof. intros Hnull. unfold toProto. rewrite Hnull. reflexivity. Qed.

Lemma toProto_null_state (e : TaskAttemptFinishedEvent) :
  state e = None -> toProto e = Throw NullPointerException.
Proof.
  intros Hnull. unfold toProto. rewrite Hnull.
  destruct (taskAttemptId e); reflexivity.
Qed.

Lemma toProto_Ok_required (e : TaskAttemptFinishedEvent) (p : TaskAttemptFinishedProto) :
  toProto e = Ok p ->
  exists taId st, taskAttemptId e = Some taId /\ state e = Some st.
Proof.
  intros Hp.
  destruct (taskAttemptId e) as [taId |] eqn:Hid;
    [| rewrite (toProto_null_taskAttemptId e Hid) in Hp; discriminate Hp].
  destruct (state e) as [st |] eqn:Hst;
    [| rewrite (toProto_null_state e Hst) in Hp; discriminate Hp].
  exists taId, st. split; reflexivity.
Qed.

(** [toProto] returns a message as soon as the two dereferenced fields are
    set and the converters it calls return. *)
Lemma toProto_returns (e : TaskAttemptFinishedEvent) :
  taskAttemptId e <> None -> state e <> None ->
  (forall c, exists pc, convertTezCountersToProto c = Ok pc) ->
  (forall d, exists pd, DataEventDependencyInfo_toProto d = Ok pd) ->
  (forall ev, exists pev, TezEventUtils_toProto ev = Ok pev) ->
  exists p, toProto e = Ok p.
Proof.
  intros Hid Hst Hcounters Hinfos Hevents. unfold toProto.
  destruct (taskAttemptId e) as [taId |]; [| elim Hid; reflexivity].
  destruct (state e) as [st |]; [| elim Hst; reflexivity].
  cbn [bind deref].
  assert (Hc : exists pc,
             match tezCounters e with
             | Some c => pc <- convertTezCountersToProto c ;; Ok (Some pc)
             | None => Ok None
             end = Ok pc).
  { destruct (tezCounters e) as [c |]; [| eexists; reflexivity].
    destruct (Hcounters c) as [pc ->]. eexists. reflexivity. }
  destruct Hc as [pc ->]. cbn [bind].
  assert (Hi : exists l,
             match dataEvents e with
             | Some (info :: more) => forEach DataEventDependencyInfo_toProto (info :: more)
             | Some [] => Ok []
             | None => Ok []
             end = Ok l).
  { destruct (dataEvents e) as [[| info more] |]; try (eexists; reflexivity).
    apply forEach_returns. exact Hinfos. }
  destruct Hi as [l ->]. cbn [bind].
  assert (He : exists l',
             match taGeneratedEvents e with
             | Some (event :: more) => forEach TezEventUtils_toProto (event :: more)
             | Some [] => Ok []
             | None => Ok []
             end = Ok l').
  { destruct (taGeneratedEvents e) as [[| event more] |]; try (eexists; reflexivity).
    apply forEach_returns. exact Hevents. }
  destruct He as [l' ->]. cbn [bind].
  eexists. reflexivity.
Qed.

(** The singular fields of the message [toProto] builds. *)
Lemma toProto_fields (e : TaskAttemptFinishedEvent) (p : TaskAttemptFinishedProto) :
  toProto e = Ok p ->
  taskAttemptId_ p = option_map TezTaskAttemptID_toString (taskAttemptId e)
  /\ state_ p = option_map (fun st => Z.of_nat (ordinal st)) (state e)
  /\ creationTime_ p = Some (creationTime e)
  /\ allocationTime_ p = Some (allocationTime e)
  /\ startTime_ p = Some (startTime e)
  /\ finishTime_ p = Some (finishTime e)
  /\ creationCausalTA_ p = option_map TezTaskAttemptID_toString (creationCausalTA e)
  /\ diagnostics_ p = diagnostics e
  /\ errorEnum_ p = option_map name (error e)
  /\ containerId_ p = option_map ContainerId_toString (containerId e)
  /\ nodeId_ p = option_map NodeId_toString (nodeId e)
  /\ nodeHttpAddress_ p = nodeHttpAddress e.
Proof.
  intros Hp. unfold toProto in Hp.
  destruct (taskAttemptId e) as [taId |]; [| discriminate Hp].
  destruct (state e) as [st |]; [| discriminate Hp].
  cbn [bind deref] in Hp. bind_inv Hp. bind_inv Hp. bind_inv Hp.
  injection Hp as <-. simpl. repeat split.
Qed.

(** The repeated fields of the message [toProto] builds: as many entries as
    the list holds, none for [null]. *)
Lemma toProto_repeated (e : TaskAttemptFinishedEvent) (p : TaskAttemptFinishedProto) :
  toProto e = Ok p ->
  List.length (dataEvents_ p)
    = match dataEvents e with Some l => List.length l | None => 0%nat end
  /\ List.length (taGeneratedEvents_ p)
    = match taGeneratedEvents e with Some l => List.length l | None => 0%nat end.
Proof.
  intros Hp. unfold toProto in Hp.
  destruct (taskAttemptId e) as [taId |]; [| discriminate Hp].
  destruct (state e) as [st |]; [| discriminate Hp].
  cbn [bind deref] in Hp. bind_inv Hp. bind_inv Hp. bind_inv Hp.
  injection Hp as <-. simpl. split.
  - destruct (dataEvents e) as [[| d l] |].
    + injection Ha0 as <-. reflexivity.
    + apply forEach_length in Ha0. exact Ha0.
    + injection Ha0 as <-. reflexivity.
  - destruct (taGeneratedEvents e) as [[| d l] |].
    + injection Ha1 as <-. reflexivity.
    + apply forEach_length in Ha1. exact Ha1.
    + injection Ha1 as <-. reflexivity.
Qed.

Section RoundTrip.

Context {Inv : ConvertersInvert X}.

Lemma decode_attemptId (o : option TezTaskAttemptID) :
  (if isSome (option_map TezTaskAttemptID_toString o)
   then TezTaskAttemptID_fromString (stringOrDefault (option_map TezTaskAttemptID_toString o))
   else Ok None) = Ok o.
Proof. destruct o as [id |]; simpl; [apply fromString_toString | reflexivity]. Qed.

Lemma decode_containerId (o : option ContainerId) :
  (if isSome (option_map ContainerId_toString o)
   then ConverterUtils_toContainerId (stringOrDefault (option_map ContainerId_toString o))
   else Ok None) = Ok o.
Proof. destruct o as [c |]; simpl; [apply toContainerId_toString | reflexivity]. Qed.

Lemma decode_nodeId (o : option NodeId) :
  (if isSome (option_map NodeId_toString o)
   then ConverterUtils_toNodeId (stringOrDefault (option_map NodeId_toString o))
   else Ok None) = Ok o.
Proof. destruct o as [n |]; simpl; [apply toNodeId_toString | reflexivity]. Qed.

Lemma decode_error (o : option TaskAttemptTerminationCause) :
  (if isSome (option_map name o)
   then c <- valueOf (stringOrDefault (option_map name o)) ;; Ok (Some c)
   else Ok None) = Ok o.
Proof. destruct o as [c |]; simpl; [rewrite valueOf_name |]; reflexivity. Qed.

Lemma decode_text (o : option string) :
  (if isSome o then Some (stringOrDefault o) else None) = o.
Proof. destruct o; reflexivity. Qed.

Lemma decode_counters (o : option TezCounters) (po : option TezCountersProto) :
  match o with
  | Some c => pc <- convertTezCountersToProto c ;; Ok (Some pc)
  | None => Ok None
  end = Ok po ->
  match po with
  | Some pc => convertTezCountersFromProto pc
  | None => Ok None
  end = Ok o.
Proof.
  destruct o as [c |]; intros Hpo.
  - bind_inv Hpo. injection Hpo as <-. apply countersFromProto_toProto. exact Ha.
  - injection Hpo as <-. reflexivity.
Qed.

Lemma decode_list {A B : Type} (enc : A -> result B) (dec : B -> result A)
    (o : option (list A)) (entries : list B) :
  (forall x y, enc x = Ok y -> dec y = Ok x) ->
  match o with
  | Some (x :: more) => forEach enc (x :: more)
  | Some [] => Ok []
  | None => Ok []
  end = Ok entries ->
  (if Z.of_nat (List.length entries) >? 0
   then l <- forEach dec entries ;; Ok (Some l)
   else Ok None)
  = Ok match o with
       | Some (x :: more) => Some (x :: more)
       | Some [] => None
       | None => None
       end.
Proof.
  intros Hinv Hentries.
  destruct o as [[| x more] |].
  - injection Hentries as <-. reflexivity.
  - pose proof (forEach_length _ _ _ Hentries) as Hlen.
    rewrite (forEach_inverse enc dec Hinv _ _ Hentries).
    destruct entries as [| y entries]; [discriminate Hlen |].
    reflexivity.
  - injection Hentries as <-. reflexivity.
Qed.

(** Decoding what [toProto] built, into a fresh event. *)
Lemma fromProto_toProto (e : TaskAttemptFinishedEvent) (p : TaskAttemptFinishedProto) :
  toProto e = Ok p ->
  fromProto TaskAttemptFinishedEvent_empty p =
  Ok {| taskAttemptId := taskAttemptId e;
        vertexName := None;
        creationTime := creationTime e;
        allocationTime := allocationTime e;
        startTime := startTime e;
        finishTime := finishTime e;
        creationCausalTA := creationCausalTA e;
        state := state e;
        diagnostics := diagnostics e;
        tezCounters := tezCounters e;
        error := error e;
        dataEvents := match dataEvents e with
                      | Some (info :: more) => Some (info :: more)
                      | Some [] => None
                      | None => None
                      end;
        taGeneratedEvents := match taGeneratedEvents e with
                             | Some (event :: more) => Some (event :: more)
                             | Some [] => None
                             | None => None
                             end;
        containerId := containerId e;
        nodeId := nodeId e;
        inProgressLogsUrl := None;
        completedLogsUrl := None;
        nodeHttpAddress := nodeHttpAddress e |}.
Proof.
  intros Hp. unfold toProto in Hp.
  destruct (taskAttemptId e) as [taId |]; [| discriminate Hp].
  destruct (state e) as [st |]; [| discriminate Hp].
  cbn [bind deref] in Hp. bind_inv Hp. bind_inv Hp. bind_inv Hp.
  injection Hp as <-.
  apply decode_counters in Ha.
  apply (decode_list _ _ _ _ dataEventFromProto_toProto) in Ha0.
  apply (decode_list _ _ _ _ tezEventFromProto_toProto) in Ha1.
  unfold fromProto, proto_getTaskAttemptId, proto_getState,
    proto_hasCreationCausalTA, proto_getCreationCausalTA, proto_hasErrorEnum,
    proto_getErrorEnum, proto_getDataEventsCount, proto_getDataEventsList,
    proto_getTaGeneratedEventsCount, proto_getTaGeneratedEventsList,
    proto_hasContainerId, proto_getContainerId, proto_hasNodeId, proto_getNodeId,
    proto_hasDiagnostics, proto_getDiagnostics, proto_hasNodeHttpAddress,
    proto_getNodeHttpAddress.
  cbn [taskAttemptId_ state_ creationTime_ allocationTime_ startTime_ finishTime_
       creationCausalTA_ diagnostics_ errorEnum_ counters_ dataEvents_
       taGeneratedEvents_ containerId_ nodeId_ nodeHttpAddress_
       TaskAttemptFinishedEvent_empty creationCausalTA error tezCounters dataEvents
       taGeneratedEvents containerId nodeId diagnostics nodeHttpAddress
       vertexName inProgressLogsUrl completedLogsUrl stringOrDefault numberOrDefault].
  rewrite fromString_toString. cbn [bind].
  rewrite values_at_ordinal. cbn [bind].
  rewrite decode_attemptId. cbn [bind].
  rewrite decode_error. cbn [bind].
  rewrite Ha. cbn [bind].
  rewrite Ha0. cbn [bind].
  rewrite Ha1. cbn [bind].
  rewrite decode_containerId. cbn [bind].
  rewrite decode_nodeId. cbn [bind].
  rewrite !decode_text.
  reflexivity.
Qed.

End RoundTrip.

End Codec.

(** ** Varints *)

Lemma continue_test (v : Z) :
  0 <= v -> (Z.land v (Z.lnot 0x7F) =? 0) = (v <? 128).
Proof.
  intros Hv.
  rewrite <- Z.ldiff_land.
  change 0x7F with (Z.ones 7).
  rewrite Z.ldiff_ones_r by lia.
  rewrite Z.shiftr_div_pow2, Z.shiftl_mul_pow2 by lia.
  change (2 ^ 7) with 128.
  destruct (Z.ltb_spec v 128) as [Hlt | Hge].
  - rewrite Z.div_small by lia. reflexivity.
  - apply Z.eqb_neq. assert (1 <= v / 128) by (apply Z.div_le_lower_bound; lia). lia.
Qed.

Lemma lor_disjoint (a x offset : Z) :
  0 <= offset -> 0 <= a < 2 ^ offset -> 0 <= x ->
  Z.lor a (Z.shiftl x offset) = a + x * 2 ^ offset.
Proof.
  intros Hoff Ha Hx.
  assert (Hdisj : Z.land a (Z.shiftl x offset) = 0).
  { apply Z.bits_inj'. intros i Hi.
    rewrite Z.land_spec, Z.bits_0.
    destruct (Z.ltb_spec i offset) as [Hlow | Hhigh].
    - rewrite (Z.shiftl_spec_low x offset i Hlow). apply andb_false_r.
    - rewrite <- (Z.mod_small a (2 ^ offset)) by exact Ha.
      rewrite Z.mod_pow2_bits_high by lia. reflexivity. }
  rewrite <- Z.lxor_lor by exact Hdisj.
  rewrite <- Z.add_nocarry_lxor by exact Hdisj.
  rewrite Z.shiftl_mul_pow2 by exact Hoff. reflexivity.
Qed.

Lemma low7 (v : Z) : 0 <= v -> Z.land v 0x7F = v mod 128.
Proof. intros Hv. change 0x7F with (Z.ones 7). rewrite Z.land_ones by lia. reflexivity. Qed.

Lemma continuation_byte (m : Z) :
  0 <= m < 128 ->
  Z.lor m 0x80 = m + 128 /\
  Z.land (m + 128) 0x7f = m /\ Z.land (m + 128) 0x80 = 128.
Proof.
  intros Hm.
  assert (Hlor : Z.lor m 0x80 = m + 128).
  { change (Z.lor m 0x80) with (Z.lor m (Z.shiftl 1 7)).
    rewrite lor_disjoint; change (2 ^ 7) with 128; lia. }
  split; [exact Hlor |]. split.
  - rewrite low7 by lia.
    rewrite <- (Z.mod_small m 128) at 2 by lia.
    replace (m + 128) with (m + 1 * 128) by lia. apply Z.mod_add. lia.
  - rewrite <- Hlor. rewrite Z.land_lor_distr_l.
    change 0x80 with (Z.shiftl 1 7) at 1.
    replace (Z.land m (Z.shiftl 1 7)) with 0; [reflexivity |].
    symmetry. apply Z.bits_inj'. intros i Hi.
    rewrite Z.land_spec, Z.bits_0.
    destruct (Z.ltb_spec i 7) as [Hlow | Hhigh].
    + rewrite (Z.shiftl_spec_low 1 7 i Hlow). apply andb_false_r.
    + rewrite <- (Z.mod_small m (2 ^ 7)) by (change (2 ^ 7) with 128; lia).
      rewrite Z.mod_pow2_bits_high by lia. reflexivity.
Qed.

Lemma no_continuation (m : Z) : 0 <= m < 128 -> Z.land m 0x80 = 0.
Proof.
  intros Hm. apply Z.bits_inj'. intros i Hi.
  rewrite Z.land_spec, Z.bits_0.
  destruct (Z.ltb_spec i 7) as [Hlow | Hhigh].
  - change 0x80 with (Z.shiftl 1 7).
    rewrite (Z.shiftl_spec_low 1 7 i Hlow). apply andb_false_r.
  - rewrite <- (Z.mod_small m (2 ^ 7)) by (change (2 ^ 7) with 128; lia).
    rewrite Z.mod_pow2_bits_high by lia. reflexivity.
Qed.

Lemma int32_small (z : Z) : 0 <= z < 2 ^ 31 -> int32 z = z.
Proof.
  intros Hz. unfold int32.
  rewrite Z.mod_small; change (2 ^ 32) with 4294967296;
    change (2 ^ 31) with 2147483648 in *; lia.
Qed.

Lemma offset_below_31 (v acc offset : Z) :
  1 <= v -> 0 <= offset -> 0 <= acc -> acc + v * 2 ^ offset < 2 ^ 31 -> offset < 31.
Proof.
  intros Hv Hoff Hacc Hsum.
  apply (Z.pow_lt_mono_r_iff 2); [lia | lia |].
  assert (0 < 2 ^ offset) by (apply Z.pow_pos_nonneg; lia).
  nia.
Qed.

Lemma readRawVarint32_loop_write (turns : nat) :
  forall v offset acc rest,
    1 <= v -> 7 <= offset -> 0 <= acc < 2 ^ offset ->
    acc + v * 2 ^ offset < 2 ^ 31 ->
    v < 2 ^ (7 * (Z.of_nat turns + 1)) ->
    readRawVarint32_loop offset acc (writeRawVarint32_loop turns v ++ rest)
    = Ok (acc + v * 2 ^ offset, rest).
Proof.
  induction turns as [| turns IH]; intros v offset acc rest Hv Hoff Hacc Hsum Hturns.
  - assert (Hsmall : v < 128) by (change (2 ^ (7 * (Z.of_nat 0 + 1))) with 128 in Hturns; lia).
    assert (Hoff31 : offset < 31) by (apply (offset_below_31 v acc); lia).
    cbn [writeRawVarint32_loop]. rewrite continue_test by lia.
    destruct (Z.ltb_spec v 128) as [_ | Hge]; [| lia].
    cbn [app readRawVarint32_loop].
    destruct (Z.ltb_spec offset 32) as [_ | Hge]; [| lia].
    rewrite no_continuation by lia. cbn [Z.eqb].
    rewrite low7, Z.mod_small, lor_disjoint, int32_small by lia.
    reflexivity.
  - assert (Hoff31 : offset < 31) by (apply (offset_below_31 v acc); lia).
    cbn [writeRawVarint32_loop]. rewrite continue_test by lia.
    destruct (Z.ltb_spec v 128) as [Hsmall | Hge].
    + cbn [app readRawVarint32_loop].
      destruct (Z.ltb_spec offset 32) as [_ | Hge]; [| lia].
      rewrite no_continuation by lia. cbn [Z.eqb].
      rewrite low7, Z.mod_small, lor_disjoint, int32_small by lia.
      reflexivity.
    + cbn [app readRawVarint32_loop].
      destruct (Z.ltb_spec offset 32) as [_ | Hge32]; [| lia].
      rewrite (low7 v) by lia.
      assert (Hm : 0 <= v mod 128 < 128) by (apply Z.mod_pos_bound; lia).
      destruct (continuation_byte (v mod 128) Hm) as (-> & Hlow & Hhigh).
      rewrite Hlow, Hhigh. cbn [Z.eqb].
      assert (Hpow : 2 ^ (offset + 7) = 128 * 2 ^ offset).
      { rewrite Z.pow_add_r by lia. change (2 ^ 7) with 128. lia. }
      assert (Hdiv : v = 128 * (v / 128) + v mod 128) by (apply Z.div_mod; lia).
      assert (Hq : 1 <= v / 128) by (apply Z.div_le_lower_bound; lia).
      assert (Hpos : 0 < 2 ^ offset) by (apply Z.pow_pos_nonneg; lia).
      rewrite lor_disjoint by lia.
      rewrite int32_small by nia.
      rewrite Z.shiftr_div_pow2 by lia. change (2 ^ 7) with 128.
      rewrite IH.
      * f_equal. f_equal. rewrite Hpow. nia.
      * exact Hq.
      * lia.
      * rewrite Hpow. nia.
      * rewrite Hpow. nia.
      * apply Z.div_lt_upper_bound; [lia |].
        replace (7 * (Z.of_nat (S turns) + 1)) with (7 + 7 * (Z.of_nat turns + 1)) in Hturns by lia.
        rewrite Z.pow_add_r in Hturns by lia. change (2 ^ 7) with 128 in Hturns. exact Hturns.
Qed.

Lemma readRawVarint32_write (n : Z) (rest : InputStream) :
  0 <= n < 2 ^ 31 ->
  exists firstByte more,
    writeRawVarint32 n = firstByte :: more
    /\ readRawVarint32 firstByte (more ++ rest) = Ok (n, rest).
Proof.
  intros Hn. unfold writeRawVarint32.
  rewrite Z.mod_small
    by (change (2 ^ 32) with 4294967296; change (2 ^ 31) with 2147483648 in Hn; lia).
  cbn [writeRawVarint32_loop]. rewrite continue_test by lia.
  destruct (Z.ltb_spec n 128) as [Hsmall | Hge].
  - exists n, []. split; [reflexivity |].
    unfold readRawVarint32. rewrite no_continuation by lia. reflexivity.
  - assert (Hm : 0 <= n mod 128 < 128) by (apply Z.mod_pos_bound; lia).
    exists (Z.lor (Z.land n 0x7F) 0x80), (writeRawVarint32_loop 3 (Z.shiftr n 7)).
    split; [reflexivity |].
    unfold readRawVarint32. rewrite (low7 n) by lia.
    destruct (continuation_byte (n mod 128) Hm) as (-> & Hlow & Hhigh).
    rewrite Hlow, Hhigh. cbn [Z.eqb].
    rewrite Z.shiftr_div_pow2 by lia. change (2 ^ 7) with 128.
    assert (Hdiv : n = 128 * (n / 128) + n mod 128) by (apply Z.div_mod; lia).
    assert (Hq : 1 <= n / 128) by (apply Z.div_le_lower_bound; lia).
    rewrite readRawVarint32_loop_write.
    + change (2 ^ 7) with 128.
      replace (n mod 128 + n / 128 * 128) with n by lia. reflexivity.
    + exact Hq.
    + lia.
    + change (2 ^ 7) with 128. lia.
    + change (2 ^ 7) with 128. lia.
    + apply Z.div_lt_upper_bound; [lia |].
      change (2 ^ (7 * (Z.of_nat 3 + 1))) with 268435456.
      change (2 ^ 31) with 2147483648 in Hn. lia.
Qed.

Lemma writeRawVarint32_loop_eq (turns : nat) (value : Z) :
  writeRawVarint32_loop turns value
  = if Z.land value (Z.lnot 0x7F) =? 0 then [value]
    else match turns with
         | O => []
         | S turns' =>
             Z.lor (Z.land value 0x7F) 0x80
               :: writeRawVarint32_loop turns' (Z.shiftr value 7)
         end.
Proof. destruct turns; reflexivity. Qed.

(** The bound on the turns is never what ends the loop: a value of
    [7 * (turns + 1)] bits is written the same with one more turn allowed. *)
Lemma writeRawVarint32_loop_enough (turns : nat) :
  forall value,
    0 <= value < 2 ^ (7 * (Z.of_nat turns + 1)) ->
    writeRawVarint32_loop (S turns) value = writeRawVarint32_loop turns value.
Proof.
  induction turns as [| turns IH]; intros value Hvalue.
  - rewrite (writeRawVarint32_loop_eq 1 value), (writeRawVarint32_loop_eq 0 value).
    rewrite continue_test by lia.
    change (2 ^ (7 * (Z.of_nat 0 + 1))) with 128 in Hvalue.
    destruct (Z.ltb_spec value 128) as [_ | Hge]; [reflexivity | lia].
  - rewrite (writeRawVarint32_loop_eq (S (S turns)) value),
      (writeRawVarint32_loop_eq (S turns) value).
    destruct (Z.land value (Z.lnot 0x7F) =? 0); [reflexivity |].
    f_equal. apply IH.
    rewrite Z.shiftr_div_pow2 by lia. change (2 ^ 7) with 128.
    split; [apply Z.div_pos; lia |].
    apply Z.div_lt_upper_bound; [lia |].
    replace (7 * (Z.of_nat (S turns) + 1)) with (7 + 7 * (Z.of_nat turns + 1))
      in Hvalue by lia.
    rewrite Z.pow_add_r in Hvalue by lia. change (2 ^ 7) with 128 in Hvalue. lia.
Qed.

(** Every [int] is written in full within the five turns. *)
Lemma writeRawVarint32_turns (value : Z) :
  writeRawVarint32_loop 5 (value mod 2 ^ 32) = writeRawVarint32 value.
Proof.
  unfold writeRawVarint32. apply writeRawVarint32_loop_enough.
  assert (Hmod : 0 <= value mod 2 ^ 32 < 2 ^ 32) by (apply Z.mod_pos_bound; reflexivity).
  change (2 ^ (7 * (Z.of_nat 4 + 1))) with 34359738368.
  change (2 ^ 32) with 4294967296 in *. lia.
Qed.




(** ** Delimited messages on a stream *)

Section Streams.

Context {X : Collaborators} {G : GeneratedCodec}.

Lemma parseDelimitedFrom_empty : parseDelimitedFrom [] = Ok None.
Proof. reflexivity. Qed.


(** The size written in front of a message is read back, whatever follows. *)
Lemma readRawVarint32_size (proto : TaskAttemptFinishedProto) (rest : InputStream) :
  getSerializedSize proto < 2 ^ 31 ->
  exists firstByte more,
    writeRawVarint32 (getSerializedSize proto) = firstByte :: more
    /\ readRawVarint32 firstByte (more ++ toByteArray proto ++ rest)
       = Ok (getSerializedSize proto, toByteArray proto ++ rest).
Proof.
  intros Hsize. apply readRawVarint32_write.
  unfold getSerializedSize in *. lia.
Qed.

Lemma parseDelimitedFrom_writeDelimitedTo {PI : ParserInverts}
    (proto : TaskAttemptFinishedProto) (rest : InputStream) :
  getSerializedSize proto < 2 ^ 31 ->
  parseDelimitedFrom (writeDelimitedTo proto [] ++ rest) = Ok (Some (proto, rest)).
Proof.
  intros Hsize.
  destruct (readRawVarint32_size proto rest Hsize) as (firstByte & more & Hwrite & Hread).
  unfold writeDelimitedTo. rewrite Hwrite.
  cbn [app]. rewrite <- !app_assoc.
  unfold parseDelimitedFrom. rewrite Hread. cbn [bind fst snd].
  unfold getSerializedSize. rewrite Nat2Z.id.
  rewrite firstn_app, Nat.sub_diag, firstn_all, firstn_O, app_nil_r.
  rewrite parseFrom_toByteArray. cbn [bind].
  rewrite skipn_app, Nat.sub_diag, skipn_all, skipn_O.
  reflexivity.
Qed.


End Streams.

(** ** The example instance *)

Module ExampleFacts.

Import Example.

Lemma converters_invert : ConvertersInvert collaborators.
Proof.
  constructor; simpl; intros; try reflexivity; congruence.
Qed.

Lemma readPositive_write (p : positive) (rest : list Z) :
  readPositive (writePositive p ++ rest) = Ok (p, rest).
Proof.
  induction p as [p IH | p IH |]; cbn [writePositive app readPositive Z.eqb Pos.eqb];
    [rewrite IH | rewrite IH |]; reflexivity.
Qed.

Lemma readNumber_write (z : Z) (rest : list Z) :
  readNumber (writeNumber z ++ rest) = Ok (z, rest).
Proof.
  destruct z as [| p | p]; cbn [writeNumber app readNumber Z.eqb Pos.eqb];
    [| rewrite readPositive_write | rewrite readPositive_write]; reflexivity.
Qed.

Lemma asciiOfByte_byteOfAscii (c : Ascii.ascii) : asciiOfByte (byteOfAscii c) = c.
Proof.
  unfold asciiOfByte, byteOfAscii. rewrite N2Z.id. apply Ascii.ascii_N_embedding.
Qed.

Lemma readChars_write (s : string) (rest : list Z) :
  readChars (String.length s) (writeChars s ++ rest) = Ok (s, rest).
Proof.
  induction s as [| c s IH]; cbn [String.length writeChars app readChars].
  - reflexivity.
  - rewrite IH. cbn [bind fst snd]. rewrite asciiOfByte_byteOfAscii. reflexivity.
Qed.

Lemma readText_write (s : string) (rest : list Z) :
  readText (writeText s ++ rest) = Ok (s, rest).
Proof.
  unfold readText, writeText. rewrite <- app_assoc, readNumber_write.
  cbn [bind fst snd]. rewrite Nat2Z.id. apply readChars_write.
Qed.

Lemma readEntries_write (l : list Z) (rest : list Z) :
  readEntries (List.length l) (writeEntries l ++ rest) = Ok (l, rest).
Proof.
  induction l as [| x l IH]; cbn [List.length writeEntries app readEntries].
  - reflexivity.
  - rewrite <- app_assoc, readNumber_write. cbn [bind fst snd].
    rewrite IH. reflexivity.
Qed.

Lemma readOptional_write {A : Type} (put : A -> list Z)
    (get : list Z -> result (A * list Z)) (field : option A) (rest : list Z) :
  (forall v rest', get (put v ++ rest') = Ok (v, rest')) ->
  readOptional (isSome field) get (writeOptional put field ++ rest) = Ok (field, rest).
Proof.
  intros Hget. destruct field as [v |]; cbn [isSome readOptional writeOptional].
  - rewrite Hget. reflexivity.
  - reflexivity.
Qed.

Lemma readRepeated_write (field : list Z) (rest : list Z) :
  readRepeated (nonEmpty field) (writeRepeated field ++ rest) = Ok (field, rest).
Proof.
  destruct field as [| x l]; cbn [nonEmpty readRepeated writeRepeated].
  - reflexivity.
  - rewrite <- app_assoc, readNumber_write. cbn [bind fst snd].
    rewrite Nat2Z.id. apply readEntries_write.
Qed.

Lemma testbit_packBits (bits : list bool) :
  forall i : nat, Z.testbit (packBits bits) (Z.of_nat i) = nth i bits false.
Proof.
  induction bits as [| b bits IH]; intros i; cbn [packBits].
  - rewrite Z.bits_0. destruct i; reflexivity.
  - replace ((if b then 1 else 0) + 2 * packBits bits)
      with (2 * packBits bits + Z.b2z b) by (destruct b; cbn [Z.b2z]; lia).
    destruct i as [| i].
    + apply Z.testbit_0_r.
    + rewrite Nat2Z.inj_succ, Z.testbit_succ_r by lia. apply IH.
Qed.

Lemma parse_serialize (p : TaskAttemptFinishedProto (X := collaborators)) :
  parse (serialize p) = Ok p.
Proof.
  destruct p as [taId st creation allocation start finish causal diag err
                 counters infos events container node http].
  unfold serialize, presenceBitmap, fieldPayloads.
  cbn [taskAttemptId_ state_ creationTime_ allocationTime_ startTime_ finishTime_
       creationCausalTA_ diagnostics_ errorEnum_ counters_ dataEvents_
       taGeneratedEvents_ containerId_ nodeId_ nodeHttpAddress_ app parse].
  rewrite <- (app_nil_r (writeOptional writeText http)).
  change 0 with (Z.of_nat 0). change 1 with (Z.of_nat 1).
  change 2 with (Z.of_nat 2). change 3 with (Z.of_nat 3).
  change 4 with (Z.of_nat 4). change 5 with (Z.of_nat 5).
  change 6 with (Z.of_nat 6). change 7 with (Z.of_nat 7).
  rewrite !testbit_packBits. cbn [nth].
  repeat first
    [ rewrite (readOptional_write writeText readText) by apply readText_write
    | rewrite (readOptional_write writeNumber readNumber) by apply readNumber_write
    | rewrite readRepeated_write
    | progress cbn [bind fst snd] ].
  reflexivity.
Qed.

(** *** Cut payloads

    The example parser rejects every payload that was cut short: each
    reader fails on a proper part of what its writer wrote. *)












Lemma parser_inverts : ParserInverts (G := codec).
Proof. constructor. exact parse_serialize. Qed.

(** A stream that ends inside the length prefix, and one that ends inside
    the payload of the sample frame. *)
Lemma truncated_streams :
  fromProtoStream (G := codec) TaskAttemptFinishedEvent_empty [255]
  = Throw truncatedMessage
  /\ fromProtoStream (G := codec) TaskAttemptFinishedEvent_empty [30; 63; 0; 1; 3]
     = Throw truncatedMessage.
Proof. split; reflexivity. Qed.

End ExampleFacts.

(** * The claims *)

Section RoundTripClaim.

Context {X : Collaborators} {Inv : ConvertersInvert X}.
Context {G : GeneratedCodec} {PI : ParserInverts}.

(** C1, as the code has it.  Let [e] be an event that [toProto] encodes to
    [p] (its task attempt id and state are set), with a serialized size that
    fits an [int], and let the converters and the parser invert their
    counterparts.  Decoding into a fresh event, from the message or from the
    bytes [toProtoStream] wrote, gives back the task attempt id, the state,
    the four timestamps, creationCausalTA, diagnostics, error, counters,
    containerId, nodeId and nodeHttpAddress of [e], present or absent as in
    [e], and its two lists when they are absent or not empty.  vertexName,
    inProgressLogsUrl and completedLogsUrl are not encoded and come back
    absent, and an empty list comes back absent.  So the decoded event equals
    [e] when [e] has those three fields absent and no empty list. *)
Theorem decode_encode_round_trip
    (e : TaskAttemptFinishedEvent) (p : TaskAttemptFinishedProto) :
  toProto e = Ok p ->
  getSerializedSize p < 2 ^ 31 ->
  let decoded :=
    {| taskAttemptId := taskAttemptId e;
       vertexName := None;
       creationTime := creationTime e;
       allocationTime := allocationTime e;
       startTime := startTime e;
       finishTime := finishTime e;
       creationCausalTA := creationCausalTA e;
       state := state e;
       diagnostics := diagnostics e;
       tezCounters := tezCounters e;
       error := error e;
       dataEvents := match dataEvents e with
                     | Some (info :: more) => Some (info :: more)
                     | Some [] => None
                     | None => None
                     end;
       taGeneratedEvents := match taGeneratedEvents e with
                            | Some (event :: more) => Some (event :: more)
                            | Some [] => None
                            | None => None
                            end;
       containerId := containerId e;
       nodeId := nodeId e;
       inProgressLogsUrl := None;
       completedLogsUrl := None;
       nodeHttpAddress := nodeHttpAddress e |} in
  fromProto TaskAttemptFinishedEvent_empty p = Ok decoded
  /\ (forall rest,
        fromProtoStream TaskAttemptFinishedEvent_empty
          (snd (toProtoStream e []) ++ rest) = Ok (decoded, rest))
  /\ (vertexName e = None -> inProgressLogsUrl e = None ->
      completedLogsUrl e = None ->
      dataEvents e <> Some [] -> taGeneratedEvents e <> Some [] ->
      decoded = e).
Proof.
  intros Hp Hsize decoded.
  pose proof (fromProto_toProto e p Hp) as Hdecode.
  split; [exact Hdecode |]. split.
  - intros rest. unfold toProtoStream, fromProtoStream. rewrite Hp. cbn [snd].
    rewrite (parseDelimitedFrom_writeDelimitedTo p rest Hsize). cbn [bind].
    rewrite Hdecode. reflexivity.
  - intros Hvertex Hrunning Hdone Hinfos Hevents.
    subst decoded. destruct e as [taId vertex creation allocation start finish
      causal st diag counters err infos events container node running done http].
    cbn [taskAttemptId vertexName creationTime allocationTime startTime finishTime
         creationCausalTA state diagnostics tezCounters error dataEvents
         taGeneratedEvents containerId nodeId inProgressLogsUrl completedLogsUrl
         nodeHttpAddress] in *.
    subst vertex running done.
    destruct infos as [[| info infos] |]; [elim Hinfos; reflexivity | |];
      (destruct events as [[| event events] |];
       [elim Hevents; reflexivity | reflexivity | reflexivity]).
Qed.

End RoundTripClaim.

(** The round trip on the fully populated sample event. *)
Lemma decode_encode_round_trip_witness :
  exists p,
    toProto Example.finishedAttempt = Ok p
    /\ getSerializedSize (G := Example.codec) p < 2 ^ 31
    /\ fromProto TaskAttemptFinishedEvent_empty p
       = Ok (Build_TaskAttemptFinishedEvent (X := Example.collaborators)
               (Some "attempt_1_1_0_0_0"%string) None 10 50 100 150
               (Some "attempt_1_1_0_0_1"%string) (Some FAILED)
               (Some "container lost"%string) (Some 7)
               (Some Example.CONTAINER_EXITED) (Some [1; 2]) None
               (Some "container_1"%string) (Some "node:1"%string) None None
               (Some "node:8042"%string)).
Proof.
  eexists. split; [vm_compute; reflexivity |]. split; [vm_compute; reflexivity |].
  exact (proj1 (decode_encode_round_trip
                  (Inv := ExampleFacts.converters_invert)
                  (PI := ExampleFacts.parser_inverts)
                  Example.finishedAttempt _ eq_refl eq_refl)).
Defined.

(** C1 as stated fails: the sample event names its vertex, and the event
    decoded from its encoding does not. *)
Lemma round_trip_loses_vertexName :
  exists p decoded,
    toProto Example.finishedAttempt = Ok p
    /\ fromProto TaskAttemptFinishedEvent_empty p = Ok decoded
    /\ vertexName Example.finishedAttempt = Some "Map 1"%string
    /\ vertexName decoded = None
    /\ decoded <> Example.finishedAttempt.
Proof.
  eexists. eexists. split; [vm_compute; reflexivity |].
  split; [vm_compute; reflexivity |].
  split; [reflexivity |]. split; [reflexivity |].
  intros Heq. apply (f_equal vertexName) in Heq. discriminate Heq.
Qed.

(** ** The constructors and the fields no message carries *)

Section LogUrlsClaim.

Context {X : Collaborators}.

(** C2, as the code has it.  The full constructor assigns inProgressLogsUrl
    and completedLogsUrl from its arguments, so on an event it built the two
    getters return what was passed, and the absent value only when the
    absent value was passed.  It is [fromProto] that never assigns them: it
    leaves both as they were, so they are unset on every event decoded into
    a fresh object. *)
Theorem full_constructor_stores_log_urls :
  (forall taId vertex start finish st err diag counters infos events creation
          causal allocation container node running done http,
      let e := TaskAttemptFinishedEvent_full taId vertex start finish st err diag
                 counters infos events creation causal allocation container node
                 running done http in
      getInProgressLogsUrl e = running /\ getCompletedLogsUrl e = done)
  /\ (forall this p e,
        fromProto this p = Ok e ->
        getInProgressLogsUrl e = getInProgressLogsUrl this
        /\ getCompletedLogsUrl e = getCompletedLogsUrl this)
  /\ (forall p e,
        fromProto TaskAttemptFinishedEvent_empty p = Ok e ->
        getInProgressLogsUrl e = None /\ getCompletedLogsUrl e = None).
Proof.
  assert (Hkeeps : forall this p e,
             fromProto this p = Ok e ->
             getInProgressLogsUrl e = getInProgressLogsUrl this
             /\ getCompletedLogsUrl e = getCompletedLogsUrl this).
  { intros this p e He. unfold fromProto in He.
    do 9 bind_inv He. injection He as <-. split; reflexivity. }
  split; [| split].
  - intros. split; reflexivity.
  - exact Hkeeps.
  - intros p e He. exact (Hkeeps _ p e He).
Qed.

End LogUrlsClaim.

(** C2 as stated fails: the sample event was built by the full constructor
    with both log URLs given, and both getters return them. *)
Lemma full_constructor_sets_log_urls :
  getInProgressLogsUrl Example.finishedAttempt = Some "http://node:1/running"%string
  /\ getCompletedLogsUrl Example.finishedAttempt = Some "http://node:1/done"%string
  /\ getInProgressLogsUrl Example.finishedAttempt <> None
  /\ getCompletedLogsUrl Example.finishedAttempt <> None.
Proof. repeat split; try reflexivity; discriminate. Qed.

(** The log URLs of the sample event, and of the event decoded from the
    sample message. *)
Lemma full_constructor_stores_log_urls_witness :
  exists e,
    fromProto (X := Example.collaborators) TaskAttemptFinishedEvent_empty
      (Example.message 0 10 50 100 150 None) = Ok e
    /\ getInProgressLogsUrl e = None /\ getCompletedLogsUrl e = None.
Proof.
  eexists. split; [vm_compute; reflexivity |].
  exact (proj2 (proj2 (full_constructor_stores_log_urls (X := Example.collaborators)))
           (Example.message 0 10 50 100 150 None) _ eq_refl).
Defined.

(** ** Absent optional fields *)

Section AbsentFieldsClaim.

Context {X : Collaborators}.

(** C3.  Decoding a message into a fresh event leaves every optional field
    the message does not have at [null]: creationCausalTA, diagnostics,
    error, counters, containerId, nodeId and nodeHttpAddress.  No default
    value stands in for an absent field. *)
Theorem absent_optional_field_decodes_to_null
    (p : TaskAttemptFinishedProto) (e : TaskAttemptFinishedEvent) :
  fromProto TaskAttemptFinishedEvent_empty p = Ok e ->
  (proto_hasCreationCausalTA p = false -> getCreationCausalTA e = None)
  /\ (proto_hasDiagnostics p = false -> getDiagnostics e = None)
  /\ (proto_hasErrorEnum p = false -> getTaskAttemptError e = None)
  /\ (proto_hasCounters p = false -> getCounters e = None)
  /\ (proto_hasContainerId p = false -> getContainerId e = None)
  /\ (proto_hasNodeId p = false -> getNodeId e = None)
  /\ (proto_hasNodeHttpAddress p = false -> getNodeHttpAddress e = None).
Proof.
  intros He. unfold fromProto in He.
  bind_inv He. bind_inv He.
  bind_inv He. rename a1 into causal, Ha1 into Hcausal.
  bind_inv He. rename a1 into err, Ha1 into Herr.
  bind_inv He. rename a1 into counters, Ha1 into Hcounters.
  bind_inv He. bind_inv He.
  bind_inv He. rename a3 into container, Ha3 into Hcontainer.
  bind_inv He. rename a3 into node, Ha3 into Hnode.
  injection He as <-.
  unfold getCreationCausalTA, getDiagnostics, getTaskAttemptError, getCounters,
    getContainerId, getNodeId, getNodeHttpAddress, proto_hasCounters.
  cbn [creationCausalTA diagnostics error tezCounters containerId nodeId
       nodeHttpAddress].
  repeat split; intros Habsent.
  - rewrite Habsent in Hcausal. injection Hcausal as <-. reflexivity.
  - rewrite Habsent. reflexivity.
  - rewrite Habsent in Herr. injection Herr as <-. reflexivity.
  - destruct (counters_ p); [discriminate Habsent |].
    injection Hcounters as <-. reflexivity.
  - rewrite Habsent in Hcontainer. injection Hcontainer as <-. reflexivity.
  - rewrite Habsent in Hnode. injection Hnode as <-. reflexivity.
  - rewrite Habsent. reflexivity.
Qed.

End AbsentFieldsClaim.

(** The sample message has none of the seven optional fields; the event
    decoded from it has all seven at [null]. *)
Lemma absent_optional_field_decodes_to_null_witness :
  exists e,
    fromProto (X := Example.collaborators) TaskAttemptFinishedEvent_empty
      (Example.message 0 10 50 100 150 None) = Ok e
    /\ getCreationCausalTA e = None /\ getDiagnostics e = None
    /\ getTaskAttemptError e = None /\ getCounters e = None
    /\ getContainerId e = None /\ getNodeId e = None
    /\ getNodeHttpAddress e = None.
Proof.
  eexists. split; [vm_compute; reflexivity |].
  destruct (absent_optional_field_decodes_to_null (X := Example.collaborators)
              (Example.message 0 10 50 100 150 None) _ eq_refl)
    as (Hcausal & Hdiag & Herr & Hcounters & Hcontainer & Hnode & Hhttp).
  exact (conj (Hcausal eq_refl) (conj (Hdiag eq_refl) (conj (Herr eq_refl)
           (conj (Hcounters eq_refl) (conj (Hcontainer eq_refl)
              (conj (Hnode eq_refl) (Hhttp eq_refl))))))).
Defined.

(** ** Decoding from a stream *)

Section StreamDecodeClaim.

Context {X : Collaborators} {G : GeneratedCodec}.


End StreamDecodeClaim.



(** ** Required fields *)

Section RequiredFieldsClaim.

Context {X : Collaborators} {G : GeneratedCodec}.

(** C5, as the code has it.  Encoding an event whose task attempt id or
    state is unset fails, with a [NullPointerException], and nothing is
    written: the stream handed to [toProtoStream], and the log handed to the
    Writer, are as before.  The four timestamps are [long]s and cannot be
    unset: they are written whatever they hold, and whether [toProto]
    succeeds does not depend on them. *)
Theorem toProto_required_fields (e : TaskAttemptFinishedEvent) :
  (taskAttemptId e = None \/ state e = None ->
     toProto e = Throw NullPointerException
     /\ (forall outputStream,
           toProtoStream e outputStream = (Throw NullPointerException, outputStream))
     /\ (forall log, Writer_append log e = (Throw NullPointerException, log)))
  /\ (forall p, toProto e = Ok p ->
        creationTime_ p = Some (creationTime e)
        /\ allocationTime_ p = Some (allocationTime e)
        /\ startTime_ p = Some (startTime e)
        /\ finishTime_ p = Some (finishTime e))
  /\ (forall e' p,
        taskAttemptId e' = taskAttemptId e -> state e' = state e ->
        tezCounters e' = tezCounters e -> dataEvents e' = dataEvents e ->
        taGeneratedEvents e' = taGeneratedEvents e ->
        toProto e = Ok p -> exists p', toProto e' = Ok p').
Proof.
  repeat apply conj.
  - intros Hunset.
    assert (Hthrow : toProto e = Throw NullPointerException).
    { destruct Hunset as [Hid | Hst];
        [apply toProto_null_taskAttemptId | apply toProto_null_state]; assumption. }
    repeat apply conj.
    + exact Hthrow.
    + intros outputStream. unfold toProtoStream. rewrite Hthrow. reflexivity.
    + intros log. unfold Writer_append. rewrite Hthrow. reflexivity.
  - intros p Hp. pose proof (toProto_fields e p Hp) as Hfields. tauto.
  - intros e' p Hid Hst Hcounters Hinfos Hevents Hp.
    unfold toProto in *. rewrite Hid, Hst, Hcounters, Hinfos, Hevents.
    do 5 bind_inv Hp. rewrite Ha, Ha0, Ha1, Ha2, Ha3. cbn [bind].
    eexists. reflexivity.
Qed.

End RequiredFieldsClaim.

(** An event straight from the empty constructor has no task attempt id:
    encoding it throws and the stream keeps its three bytes. *)
Lemma toProto_required_fields_witness :
  toProto (X := Example.collaborators) TaskAttemptFinishedEvent_empty
  = Throw NullPointerException
  /\ toProtoStream (G := Example.codec) TaskAttemptFinishedEvent_empty [1; 2; 3]
     = (Throw NullPointerException, [1; 2; 3]).
Proof.
  destruct (proj1 (toProto_required_fields (G := Example.codec)
                     TaskAttemptFinishedEvent_empty) (or_introl eq_refl))
    as (Hthrow & Hstream & _).
  exact (conj Hthrow (Hstream [1; 2; 3])).
Defined.

(** C5 as stated fails for the timestamps: the sample event has its four
    timestamps as the empty constructor leaves them, and it encodes; bytes
    are written. *)
Lemma toProto_accepts_unset_timestamps :
  creationTime Example.bareAttempt
  = creationTime (X := Example.collaborators) TaskAttemptFinishedEvent_empty
  /\ allocationTime Example.bareAttempt
     = allocationTime (X := Example.collaborators) TaskAttemptFinishedEvent_empty
  /\ startTime Example.bareAttempt
     = startTime (X := Example.collaborators) TaskAttemptFinishedEvent_empty
  /\ finishTime Example.bareAttempt
     = finishTime (X := Example.collaborators) TaskAttemptFinishedEvent_empty
  /\ toProto Example.bareAttempt = Ok (Example.message 0 0 0 0 0 None)
  /\ toProtoStream (G := Example.codec) Example.bareAttempt []
     = (Ok tt,
        [30; 63; 0; 1; 3; 2; 2; 2; 1; 97; 116; 116; 101; 109; 112; 116; 95; 49;
         95; 49; 95; 48; 95; 48; 95; 48; 0; 0; 0; 0; 0]).
Proof. repeat split; vm_compute; reflexivity. Qed.

(** ** Timestamps *)

Section TimestampsClaim.

Context {X : Collaborators}.

(** C6, as the code has it.  [fromProto] copies the four timestamps of the
    message into the event and checks nothing, so a decoded event has
    finishTime >= startTime >= allocationTime >= creationTime exactly when
    the message it was decoded from has; for a message that [toProto] built
    from an event, exactly when that event has. *)
Theorem fromProto_copies_timestamps
    (this e : TaskAttemptFinishedEvent) (p : TaskAttemptFinishedProto) :
  fromProto this p = Ok e ->
  (getCreationTime e = proto_getCreationTime p
   /\ getAllocationTime e = proto_getAllocationTime p
   /\ getStartTime e = proto_getStartTime p
   /\ getFinishTime e = proto_getFinishTime p)
  /\ (getFinishTime e >= getStartTime e
      /\ getStartTime e >= getAllocationTime e
      /\ getAllocationTime e >= getCreationTime e
      <-> proto_getFinishTime p >= proto_getStartTime p
          /\ proto_getStartTime p >= proto_getAllocationTime p
          /\ proto_getAllocationTime p >= proto_getCreationTime p)
  /\ (forall source,
        toProto source = Ok p ->
        (getFinishTime e >= getStartTime e
         /\ getStartTime e >= getAllocationTime e
         /\ getAllocationTime e >= getCreationTime e
         <-> getFinishTime source >= getStartTime source
             /\ getStartTime source >= getAllocationTime source
             /\ getAllocationTime source >= getCreationTime source)).
Proof.
  intros He.
  assert (Hcopy : getCreationTime e = proto_getCreationTime p
                  /\ getAllocationTime e = proto_getAllocationTime p
                  /\ getStartTime e = proto_getStartTime p
                  /\ getFinishTime e = proto_getFinishTime p).
  { unfold fromProto in He. do 9 bind_inv He. injection He as <-.
    repeat split; reflexivity. }
  destruct Hcopy as (Hcreation & Hallocation & Hstart & Hfinish).
  split; [repeat split; assumption |].
  split.
  - rewrite Hcreation, Hallocation, Hstart, Hfinish. tauto.
  - intros source Hsource.
    destruct (toProto_fields source p Hsource)
      as (_ & _ & Hc & Ha & Hs & Hf & _).
    rewrite Hcreation, Hallocation, Hstart, Hfinish.
    unfold proto_getCreationTime, proto_getAllocationTime, proto_getStartTime,
      proto_getFinishTime. rewrite Hc, Ha, Hs, Hf. cbn [numberOrDefault].
    unfold getFinishTime, getStartTime, getAllocationTime, getCreationTime. tauto.
Qed.

End TimestampsClaim.

(** A message with ordered timestamps decodes to an event with the same
    timestamps. *)
Lemma fromProto_copies_timestamps_witness :
  exists e,
    fromProto (X := Example.collaborators) TaskAttemptFinishedEvent_empty
      (Example.message 0 10 50 100 150 None) = Ok e
    /\ getCreationTime e = 10 /\ getAllocationTime e = 50
    /\ getStartTime e = 100 /\ getFinishTime e = 150.
Proof.
  eexists. split; [vm_compute; reflexivity |].
  exact (proj1 (fromProto_copies_timestamps (X := Example.collaborators)
                  TaskAttemptFinishedEvent_empty _
                  (Example.message 0 10 50 100 150 None) eq_refl)).
Defined.

(** C6 as stated fails: the message is well formed, it finishes at 1 and
    starts at 100, and it decodes to an event with these timestamps. *)
Lemma decoded_timestamps_unordered :
  exists e,
    fromProto (X := Example.collaborators) TaskAttemptFinishedEvent_empty
      (Example.message 0 10 50 100 1 None) = Ok e
    /\ getStartTime e = 100 /\ getFinishTime e = 1
    /\ ~ (getFinishTime e >= getStartTime e
          /\ getStartTime e >= getAllocationTime e
          /\ getAllocationTime e >= getCreationTime e).
Proof.
  eexists. split; [vm_compute; reflexivity |].
  split; [reflexivity |]. split; [reflexivity |].
  intros [Hfinish _]. vm_compute in Hfinish. apply Hfinish. reflexivity.
Qed.

(** ** Replay *)

(** C7.  [apply] is a function of the state and the event alone, and
    applying an event a second time changes nothing:
    [apply (apply s ev) ev = apply s ev] for every state and event. *)
Theorem apply_idempotent (s : EntityState) (ev : ReplayEvent) :
  apply (apply s ev) ev = apply s ev.
Proof.
  destruct s as [ph dur created running].
  destruct ev as [start | start finish outcome]; destruct ph; reflexivity.
Qed.

(** Scenario A of the spec: started, then finished. *)
Lemma replay_started_finished :
  replay [Started 100; Finished 100 150 SUCCEEDED]
  = {| phase := TERMINAL SUCCEEDED; duration := Some 50;
       missingCreated := false; missingRunning := false |}.
Proof. reflexivity. Qed.

(** Scenario B of the spec: finished without having been started. *)
Lemma replay_finished_only :
  replay [Finished 100 150 FAILED]
  = {| phase := TERMINAL FAILED; duration := Some 50;
       missingCreated := true; missingRunning := false |}.
Proof. reflexivity. Qed.

(** Replaying a log in which every frame was delivered twice gives the same
    state. *)
Lemma replay_duplicated (events : list ReplayEvent) (s : EntityState) :
  fold_left apply (flat_map (fun ev => [ev; ev]) events) s
  = fold_left apply events s.
Proof.
  revert s. induction events as [| ev events IH]; intros s; cbn [flat_map app fold_left].
  - reflexivity.
  - replace (apply (apply s ev) ev) with (apply s ev).
    + apply IH.
    + destruct s as [ph dur created running].
      destruct ev as [start | start finish outcome]; destruct ph; reflexivity.
Qed.

(** ** Frames *)

Section FrameClaim.

Context {X : Collaborators} {G : GeneratedCodec}.

(** C8.  Let [e] encode to [p], with a payload (the serialized message: the
    presence information and the field payloads) of a size that fits an
    [int].  The frame the Writer appends to the log is the event-type tag,
    then the length of the payload, then the payload; the part of it that
    [toProtoStream] writes is the length and the payload, a length-delimited
    encoding.  The frame describes itself: reading the length back gives the
    number of payload bytes, and a reader that knows nothing of the payload
    skips the frame by it and stands at the next one. *)
Theorem frame_is_tag_length_payload
    (e : TaskAttemptFinishedEvent) (p : TaskAttemptFinishedProto)
    (log rest : list Z) :
  toProto e = Ok p ->
  getSerializedSize p < 2 ^ 31 ->
  let tag := Z.of_nat (ordinal (getEventType e)) in
  let size := Z.of_nat (List.length (toByteArray p)) in
  Writer_append log e
  = (Ok tt, log ++ [tag] ++ writeRawVarint32 size ++ toByteArray p)
  /\ toProtoStream e log
     = (Ok tt, log ++ writeRawVarint32 size ++ toByteArray p)
  /\ (exists firstByte more,
        writeRawVarint32 size = firstByte :: more
        /\ readRawVarint32 firstByte (more ++ toByteArray p ++ rest)
           = Ok (size, toByteArray p ++ rest))
  /\ Reader_skip ([tag] ++ writeRawVarint32 size ++ toByteArray p ++ rest)
     = Ok (Some (tag, rest)).
Proof.
  intros Hp Hsize tag size.
  destruct (readRawVarint32_size p rest Hsize) as (firstByte & more & Hwrite & Hread).
  subst size. fold (getSerializedSize p).
  repeat apply conj.
  - unfold Writer_append, writeDelimitedTo. rewrite Hp.
    rewrite <- app_assoc. reflexivity.
  - unfold toProtoStream, writeDelimitedTo. rewrite Hp. reflexivity.
  - exists firstByte, more. split; assumption.
  - rewrite Hwrite. cbn [app]. unfold Reader_skip.
    rewrite Hread. cbn [bind fst snd].
    unfold getSerializedSize. rewrite Nat2Z.id.
    destruct (Nat.ltb_spec (List.length (toByteArray p ++ rest))
                (List.length (toByteArray p))) as [Hshort | _].
    + rewrite length_app in Hshort. lia.
    + rewrite skipn_app, Nat.sub_diag, skipn_all, skipn_O. reflexivity.
Qed.

End FrameClaim.

(** The frame of the sample event with all but its timestamps, id and state
    absent: tag 1, length 30, the two bitmap bytes 63 and 0, then the
    payloads of the six fields present. *)
Lemma frame_is_tag_length_payload_witness :
  toProto Example.bareAttempt = Ok (Example.message 0 0 0 0 0 None)
  /\ getSerializedSize (G := Example.codec) (Example.message 0 0 0 0 0 None) < 2 ^ 31
  /\ Example.presenceBitmap (Example.message 0 0 0 0 0 None) = [63; 0]
  /\ Writer_append (G := Example.codec) [] Example.bareAttempt
     = (Ok tt,
        [1] ++ [30] ++ [63; 0]
        ++ Example.fieldPayloads (Example.message 0 0 0 0 0 None))
  /\ Reader_skip
       ([1] ++ [30] ++ [63; 0]
        ++ Example.fieldPayloads (Example.message 0 0 0 0 0 None) ++ [1; 30])
     = Ok (Some (1, [1; 30])).
Proof.
  split; [reflexivity |]. split; [reflexivity |]. split; [reflexivity |].
  destruct (frame_is_tag_length_payload (G := Example.codec)
              Example.bareAttempt (Example.message 0 0 0 0 0 None) [] [1; 30]
              eq_refl eq_refl) as (Happend & _ & _ & Hskip).
  exact (conj Happend Hskip).
Defined.

(** ** Empty lists *)

Section EmptyListClaim.

Context {X : Collaborators} {Inv : ConvertersInvert X}.

(** C9.  An event whose dataEvents (or taGeneratedEvents) list is present
    but empty encodes to a message with no entry for that list, and decoding
    that message into a fresh event gives the list as [null]: the empty list
    does not survive the round trip. *)
Theorem empty_list_decodes_to_null
    (e : TaskAttemptFinishedEvent) (p : TaskAttemptFinishedProto) :
  toProto e = Ok p ->
  (dataEvents e = Some [] ->
     proto_getDataEventsCount p = 0
     /\ exists decoded,
          fromProto TaskAttemptFinishedEvent_empty p = Ok decoded
          /\ getDataEvents decoded = None
          /\ getDataEvents decoded <> getDataEvents e)
  /\ (taGeneratedEvents e = Some [] ->
        proto_getTaGeneratedEventsCount p = 0
        /\ exists decoded,
             fromProto TaskAttemptFinishedEvent_empty p = Ok decoded
             /\ getTAGeneratedEvents decoded = None
             /\ getTAGeneratedEvents decoded <> getTAGeneratedEvents e).
Proof.
  intros Hp.
  pose proof (fromProto_toProto e p Hp) as Hdecode.
  destruct (toProto_repeated e p Hp) as [Hinfos Hevents].
  split; intros Hempty.
  - split.
    + unfold proto_getDataEventsCount. rewrite Hinfos, Hempty. reflexivity.
    + eexists. split; [exact Hdecode |].
      unfold getDataEvents. cbn [dataEvents]. rewrite Hempty.
      split; [reflexivity | discriminate].
  - split.
    + unfold proto_getTaGeneratedEventsCount. rewrite Hevents, Hempty. reflexivity.
    + eexists. split; [exact Hdecode |].
      unfold getTAGeneratedEvents. cbn [taGeneratedEvents]. rewrite Hempty.
      split; [reflexivity | discriminate].
Qed.

End EmptyListClaim.

(** The sample event has an empty list of generated events; its message has
    no entry for them. *)
Lemma empty_list_decodes_to_null_witness :
  exists p,
    toProto Example.finishedAttempt = Ok p
    /\ getTAGeneratedEvents Example.finishedAttempt = Some []
    /\ proto_getTaGeneratedEventsCount p = 0
    /\ exists decoded,
         fromProto TaskAttemptFinishedEvent_empty p = Ok decoded
         /\ getTAGeneratedEvents decoded = None
         /\ getTAGeneratedEvents decoded <> getTAGeneratedEvents Example.finishedAttempt.
Proof.
  eexists. split; [vm_compute; reflexivity |]. split; [reflexivity |].
  exact (proj2 (empty_list_decodes_to_null
                  (Inv := ExampleFacts.converters_invert)
                  Example.finishedAttempt _ eq_refl) eq_refl).
Defined.

(** ** Unknown enum values *)

Section UnknownEnumClaim.

Context {X : Collaborators}.

(** C10.  [fromProto] indexes [TaskAttemptState.values()] by the state of
    the message and looks the error up by its name, with no guard.  On a
    message whose task attempt id converts, a state below 0 or not below the
    number of states makes it throw [ArrayIndexOutOfBoundsException]; with a
    state in range and a causal attempt that converts, an error name that no
    [TaskAttemptTerminationCause] has makes it throw
    [IllegalArgumentException].  Neither is an [IOException], and no event
    is returned. *)
Theorem fromProto_throws_on_unknown_enum_value
    (this : TaskAttemptFinishedEvent) (p : TaskAttemptFinishedProto)
    (taId : option TezTaskAttemptID) :
  TezTaskAttemptID_fromString (proto_getTaskAttemptId p) = Ok taId ->
  (proto_getState p < 0
   \/ Z.of_nat (List.length (values (E := TaskAttemptState))) <= proto_getState p ->
   fromProto this p = Throw (ArrayIndexOutOfBoundsException (proto_getState p)))
  /\ (forall (st : TaskAttemptState) causal,
        values_at (proto_getState p) = Ok st ->
        (if proto_hasCreationCausalTA p
         then TezTaskAttemptID_fromString (proto_getCreationCausalTA p)
         else Ok (creationCausalTA this)) = Ok causal ->
        proto_hasErrorEnum p = true ->
        (forall c : TaskAttemptTerminationCause, name c <> proto_getErrorEnum p) ->
        fromProto this p
        = Throw (IllegalArgumentException
                   ("No enum constant " ++ proto_getErrorEnum p)%string)).
Proof.
  intros Hid. split.
  - intros Hrange. unfold fromProto. rewrite Hid. cbn [bind].
    pose proof (values_at_out_of_range _ Hrange) as Hthrow.
    rewrite Hthrow. reflexivity.
  - intros st causal Hst Hcausal Herr Hunknown.
    unfold fromProto. rewrite Hid. cbn [bind]. rewrite Hst. cbn [bind].
    rewrite Hcausal. cbn [bind]. rewrite Herr.
    pose proof (valueOf_unknown _ Hunknown) as Hthrow.
    rewrite Hthrow. reflexivity.
Qed.

End UnknownEnumClaim.

(** Two well-formed messages: one with state 7, one with the error name
    BOGUS. *)
Lemma fromProto_throws_on_unknown_enum_value_witness :
  fromProto (X := Example.collaborators) TaskAttemptFinishedEvent_empty
    (Example.message 7 10 50 100 150 None)
  = Throw (ArrayIndexOutOfBoundsException 7)
  /\ fromProto (X := Example.collaborators) TaskAttemptFinishedEvent_empty
       (Example.message 0 10 50 100 150 (Some "BOGUS"%string))
     = Throw (IllegalArgumentException "No enum constant BOGUS").
Proof.
  split.
  - apply (proj1 (fromProto_throws_on_unknown_enum_value (X := Example.collaborators)
                    TaskAttemptFinishedEvent_empty
                    (Example.message 7 10 50 100 150 None) _ eq_refl)).
    right. vm_compute. discriminate.
  - apply (proj2 (fromProto_throws_on_unknown_enum_value (X := Example.collaborators)
                    TaskAttemptFinishedEvent_empty
                    (Example.message 0 10 50 100 150 (Some "BOGUS"%string)) _ eq_refl)
             SUCCEEDED None eq_refl eq_refl eq_refl).
    intros []; discriminate.
Defined.

(** * Further properties of the event *)

Section DecodeFacts.

Context {X : Collaborators}.

(** Every enum constant sits at one index of [values()]. *)
Lemma values_at_Ok (i : Z) (c : TaskAttemptState) :
  values_at i = Ok c -> 0 <= i /\ Z.of_nat (ordinal c) = i.
Proof.
  unfold values_at. intros Hat.
  destruct (Z.ltb_spec i 0) as [Hneg | Hpos]; [discriminate Hat |].
  destruct (nth_error values (Z.to_nat i)) as [d |] eqn:Hnth; [| discriminate Hat].
  injection Hat as ->. split; [exact Hpos |].
  assert (Hnodup : NoDup (values (E := TaskAttemptState))).
  { apply (NoDup_map_inv name). apply names_distinct. }
  assert (Hlt : (Z.to_nat i < List.length (values (E := TaskAttemptState)))%nat).
  { apply nth_error_Some. rewrite Hnth. discriminate. }
  pose proof (values_ordinal c) as Hord.
  rewrite <- Hnth in Hord.
  apply (proj1 (NoDup_nth_error _) Hnodup) in Hord.
  - lia.
  - apply nth_error_Some. rewrite Hord, Hnth. discriminate.
Qed.

Lemma valueOf_Ok (s : string) (c : TaskAttemptTerminationCause) :
  valueOf s = Ok c -> name c = s.
Proof.
  unfold valueOf. intros Hof.
  destruct (find _ values) as [d |] eqn:Hfind; [| discriminate Hof].
  injection Hof as ->. apply find_some in Hfind.
  apply String.eqb_eq. exact (proj2 Hfind).
Qed.

(** What [fromProto] assigns, field by field. *)
Lemma fromProto_Ok (this e : TaskAttemptFinishedEvent) (p : TaskAttemptFinishedProto) :
  fromProto this p = Ok e ->
  exists taId st causal err counters infos events container node,
    TezTaskAttemptID_fromString (proto_getTaskAttemptId p) = Ok taId
    /\ values_at (proto_getState p) = Ok st
    /\ (if proto_hasCreationCausalTA p
        then TezTaskAttemptID_fromString (proto_getCreationCausalTA p)
        else Ok (creationCausalTA this)) = Ok causal
    /\ (if proto_hasErrorEnum p
        then c <- valueOf (proto_getErrorEnum p) ;; Ok (Some c)
        else Ok (error this)) = Ok err
    /\ match counters_ p with
       | Some pc => convertTezCountersFromProto pc
       | None => Ok (tezCounters this)
       end = Ok counters
    /\ (if proto_getDataEventsCount p >? 0
        then l <- forEach DataEventDependencyInfo_fromProto (proto_getDataEventsList p) ;;
             Ok (Some l)
        else Ok (dataEvents this)) = Ok infos
    /\ (if proto_getTaGeneratedEventsCount p >? 0
        then l <- forEach TezEventUtils_fromProto (proto_getTaGeneratedEventsList p) ;;
             Ok (Some l)
        else Ok (taGeneratedEvents this)) = Ok events
    /\ (if proto_hasContainerId p
        then ConverterUtils_toContainerId (proto_getContainerId p)
        else Ok (containerId this)) = Ok container
    /\ (if proto_hasNodeId p
        then ConverterUtils_toNodeId (proto_getNodeId p)
        else Ok (nodeId this)) = Ok node
    /\ e = {| taskAttemptId := taId;
              vertexName := vertexName this;
              creationTime := proto_getCreationTime p;
              allocationTime := proto_getAllocationTime p;
              startTime := proto_getStartTime p;
              finishTime := proto_getFinishTime p;
              creationCausalTA := causal;
              state := Some st;
              diagnostics := if proto_hasDiagnostics p
                             then Some (proto_getDiagnostics p)
                             else diagnostics this;
              tezCounters := counters;
              error := err;
              dataEvents := infos;
              taGeneratedEvents := events;
              containerId := container;
              nodeId := node;
              inProgressLogsUrl := inProgressLogsUrl this;
              completedLogsUrl := completedLogsUrl this;
              nodeHttpAddress := if proto_hasNodeHttpAddress p
                                 then Some (proto_getNodeHttpAddress p)
                                 else nodeHttpAddress this |}.
Proof.
  intros He. unfold fromProto in He.
  apply bind_Ok in He. destruct He as (taId & HtaId & He).
  apply bind_Ok in He. destruct He as (st & Hst & He).
  apply bind_Ok in He. destruct He as (causal & Hcausal & He).
  apply bind_Ok in He. destruct He as (err & Herr & He).
  apply bind_Ok in He. destruct He as (counters & Hcounters & He).
  apply bind_Ok in He. destruct He as (infos & Hinfos & He).
  apply bind_Ok in He. destruct He as (events & Hevents & He).
  apply bind_Ok in He. destruct He as (container & Hcontainer & He).
  apply bind_Ok in He. destruct He as (node & Hnode & He).
  injection He as <-.
  exists taId, st, causal, err, counters, infos, events, container, node.
  repeat (split; [assumption |]). reflexivity.
Qed.

(** X1.  [fromProto] has no else branch: a field the message does not have
    keeps the value it had in the object decoded into, and so do a list
    without entries and the vertex name.  Decoding into an object that was
    used before mixes the old event into the new one. *)
Theorem fromProto_keeps_unassigned_fields
    (this e : TaskAttemptFinishedEvent) (p : TaskAttemptFinishedProto) :
  fromProto this p = Ok e ->
  vertexName e = vertexName this
  /\ (proto_hasCreationCausalTA p = false -> getCreationCausalTA e = getCreationCausalTA this)
  /\ (proto_hasDiagnostics p = false -> getDiagnostics e = getDiagnostics this)
  /\ (proto_hasErrorEnum p = false -> getTaskAttemptError e = getTaskAttemptError this)
  /\ (proto_hasCounters p = false -> getCounters e = getCounters this)
  /\ (proto_getDataEventsCount p = 0 -> getDataEvents e = getDataEvents this)
  /\ (proto_getTaGeneratedEventsCount p = 0 ->
      getTAGeneratedEvents e = getTAGeneratedEvents this)
  /\ (proto_hasContainerId p = false -> getContainerId e = getContainerId this)
  /\ (proto_hasNodeId p = false -> getNodeId e = getNodeId this)
  /\ (proto_hasNodeHttpAddress p = false -> getNodeHttpAddress e = getNodeHttpAddress this).
Proof.
  intros He.
  destruct (fromProto_Ok this e p He)
    as (taId & st & causal & err & counters & infos & events & container & node
        & _ & _ & Hcausal & Herr & Hcounters & Hinfos & Hevents & Hcontainer
        & Hnode & ->).
  unfold getCreationCausalTA, getDiagnostics, getTaskAttemptError, getCounters,
    getDataEvents, getTAGeneratedEvents, getContainerId, getNodeId,
    getNodeHttpAddress, proto_hasCounters.
  cbn [vertexName creationCausalTA diagnostics error tezCounters dataEvents
       taGeneratedEvents containerId nodeId nodeHttpAddress].
  split; [reflexivity |].
  split; [intros Habsent; rewrite Habsent in Hcausal; congruence |].
  split; [intros Habsent; rewrite Habsent; reflexivity |].
  split; [intros Habsent; rewrite Habsent in Herr; congruence |].
  split; [intros Habsent; destruct (counters_ p); [discriminate Habsent | congruence] |].
  split; [intros Habsent; rewrite Habsent in Hinfos; cbn in Hinfos; congruence |].
  split; [intros Habsent; rewrite Habsent in Hevents; cbn in Hevents; congruence |].
  split; [intros Habsent; rewrite Habsent in Hcontainer; congruence |].
  split; [intros Habsent; rewrite Habsent in Hnode; congruence |].
  intros Habsent; rewrite Habsent; reflexivity.
Qed.

(** X2.  An event decoded into a fresh object never holds an empty list:
    dataEvents and taGeneratedEvents are [null] when the message has no
    entries, and otherwise a list with as many elements as the message has
    entries. *)
Theorem decoded_lists_are_null_or_nonempty
    (e : TaskAttemptFinishedEvent) (p : TaskAttemptFinishedProto) :
  fromProto TaskAttemptFinishedEvent_empty p = Ok e ->
  match getDataEvents e with
  | None => proto_getDataEventsCount p = 0
  | Some l => l <> [] /\ Z.of_nat (List.length l) = proto_getDataEventsCount p
  end
  /\ match getTAGeneratedEvents e with
     | None => proto_getTaGeneratedEventsCount p = 0
     | Some l => l <> [] /\ Z.of_nat (List.length l) = proto_getTaGeneratedEventsCount p
     end.
Proof.
  intros He.
  destruct (fromProto_Ok _ e p He)
    as (taId & st & causal & err & counters & infos & events & container & node
        & _ & _ & _ & _ & _ & Hinfos & Hevents & _ & _ & ->).
  unfold getDataEvents, getTAGeneratedEvents. cbn [dataEvents taGeneratedEvents].
  unfold proto_getDataEventsCount, proto_getDataEventsList,
    proto_getTaGeneratedEventsCount, proto_getTaGeneratedEventsList in *.
  cbn [TaskAttemptFinishedEvent_empty dataEvents taGeneratedEvents] in Hinfos, Hevents.
  split.
  - destruct (Z.gtb_spec (Z.of_nat (List.length (dataEvents_ p))) 0) as [Hpos | Hzero].
    + apply bind_Ok in Hinfos. destruct Hinfos as (l & Hl & Hinfos).
      injection Hinfos as <-. apply forEach_length in Hl.
      split; [| congruence].
      intros ->. cbn in Hl. lia.
    + injection Hinfos as <-. lia.
  - destruct (Z.gtb_spec (Z.of_nat (List.length (taGeneratedEvents_ p))) 0)
      as [Hpos | Hzero].
    + apply bind_Ok in Hevents. destruct Hevents as (l & Hl & Hevents).
      injection Hevents as <-. apply forEach_length in Hl.
      split; [| congruence].
      intros ->. cbn in Hl. lia.
    + injection Hevents as <-. lia.
Qed.

(** X3.  Decoding a message and encoding the event again gives a message
    with the same state number, the same four timestamps (an unset one read
    as 0), and the same diagnostics, error name and node address where the
    first message had them.  The state number of a decoded message is always
    the ordinal of a state. *)
Theorem decode_then_encode_keeps_plain_fields
    (this e : TaskAttemptFinishedEvent) (p p' : TaskAttemptFinishedProto) :
  fromProto this p = Ok e ->
  toProto e = Ok p' ->
  (exists st, getState e = Some st /\ Z.of_nat (ordinal st) = proto_getState p)
  /\ proto_getState p' = proto_getState p
  /\ proto_getCreationTime p' = proto_getCreationTime p
  /\ proto_getAllocationTime p' = proto_getAllocationTime p
  /\ proto_getStartTime p' = proto_getStartTime p
  /\ proto_getFinishTime p' = proto_getFinishTime p
  /\ (proto_hasDiagnostics p = true -> diagnostics_ p' = diagnostics_ p)
  /\ (proto_hasErrorEnum p = true -> errorEnum_ p' = errorEnum_ p)
  /\ (proto_hasNodeHttpAddress p = true -> nodeHttpAddress_ p' = nodeHttpAddress_ p).
Proof.
  intros He Hp'.
  destruct (toProto_fields e p' Hp')
    as (_ & Hst' & Hc & Ha & Hs & Hf & _ & Hdiag & Herr' & _ & _ & Hhttp).
  destruct (fromProto_Ok this e p He)
    as (taId & st & causal & err & counters & infos & events & container & node
        & _ & Hst & _ & Herr & _ & _ & _ & _ & _ & ->).
  destruct (values_at_Ok _ _ Hst) as [_ Hord].
  cbn [state creationTime allocationTime startTime finishTime diagnostics error
       nodeHttpAddress option_map] in *.
  unfold proto_getState, proto_getCreationTime, proto_getAllocationTime,
    proto_getStartTime, proto_getFinishTime, getState in *.
  cbn [state].
  rewrite Hst', Hc, Ha, Hs, Hf. cbn [numberOrDefault].
  split; [exists st; split; [reflexivity | exact Hord] |].
  split; [exact Hord |].
  do 4 (split; [reflexivity |]).
  split; [| split].
  - intros Hhas. rewrite Hdiag, Hhas.
    unfold proto_hasDiagnostics, proto_getDiagnostics in *.
    destruct (diagnostics_ p); [reflexivity | discriminate Hhas].
  - intros Hhas. rewrite Herr'. rewrite Hhas in Herr.
    apply bind_Ok in Herr. destruct Herr as (c & Hc' & Herr).
    injection Herr as <-. cbn [option_map]. rewrite (valueOf_Ok _ _ Hc').
    unfold proto_hasErrorEnum, proto_getErrorEnum in *.
    destruct (errorEnum_ p); [reflexivity | discriminate Hhas].
  - intros Hhas. rewrite Hhttp, Hhas.
    unfold proto_hasNodeHttpAddress, proto_getNodeHttpAddress in *.
    destruct (nodeHttpAddress_ p); [reflexivity | discriminate Hhas].
Qed.

(** X4.  When the converters it calls return, [toProto] returns a message
    exactly for the events whose task attempt id and state are set; no other
    field can make it fail. *)
Theorem toProto_returns_iff (e : TaskAttemptFinishedEvent) :
  (forall c, exists pc, convertTezCountersToProto c = Ok pc) ->
  (forall d, exists pd, DataEventDependencyInfo_toProto d = Ok pd) ->
  (forall ev, exists pev, TezEventUtils_toProto ev = Ok pev) ->
  (exists p, toProto e = Ok p) <-> getTaskAttemptID e <> None /\ getState e <> None.
Proof.
  intros Hcounters Hinfos Hevents. unfold getTaskAttemptID, getState. split.
  - intros [p Hp]. destruct (toProto_Ok_required e p Hp) as (taId & st & -> & ->).
    split; discriminate.
  - intros [Hid Hst]. apply toProto_returns; assumption.
Qed.

(** [toProto] reads neither the vertex name nor the two log URLs, and
    it writes a list without elements like a list that is [null]: events
    that differ in these only encode to the same message (or fail alike). *)
Theorem toProto_ignores_unencoded_fields
    taId creation allocation start finish causal st diag counters err infos events
    container node http
    (vertex vertex' running running' done done' : option string) :
  toProto
    {| taskAttemptId := taId; vertexName := vertex; creationTime := creation;
       allocationTime := allocation; startTime := start; finishTime := finish;
       creationCausalTA := causal; state := st; diagnostics := diag;
       tezCounters := counters; error := err; dataEvents := infos;
       taGeneratedEvents := events; containerId := container; nodeId := node;
       inProgressLogsUrl := running; completedLogsUrl := done;
       nodeHttpAddress := http |}
  = toProto
      {| taskAttemptId := taId; vertexName := vertex'; creationTime := creation;
         allocationTime := allocation; startTime := start; finishTime := finish;
         creationCausalTA := causal; state := st; diagnostics := diag;
         tezCounters := counters; error := err; dataEvents := infos;
         taGeneratedEvents := events; containerId := container; nodeId := node;
         inProgressLogsUrl := running'; completedLogsUrl := done';
         nodeHttpAddress := http |}
  /\ toProto
       {| taskAttemptId := taId; vertexName := vertex; creationTime := creation;
          allocationTime := allocation; startTime := start; finishTime := finish;
          creationCausalTA := causal; state := st; diagnostics := diag;
          tezCounters := counters; error := err; dataEvents := Some [];
          taGeneratedEvents := Some []; containerId := container; nodeId := node;
          inProgressLogsUrl := running; completedLogsUrl := done;
          nodeHttpAddress := http |}
     = toProto
         {| taskAttemptId := taId; vertexName := vertex; creationTime := creation;
            allocationTime := allocation; startTime := start; finishTime := finish;
            creationCausalTA := causal; state := st; diagnostics := diag;
            tezCounters := counters; error := err; dataEvents := None;
            taGeneratedEvents := None; containerId := container; nodeId := node;
            inProgressLogsUrl := running; completedLogsUrl := done;
            nodeHttpAddress := http |}.
Proof. split; reflexivity. Qed.

End DecodeFacts.

Section RoundTripFacts.

Context {X : Collaborators} {Inv : ConvertersInvert X}.

(** X5.  Encoding is blind to what the round trip loses: the event decoded
    from the encoding of [e] encodes to the very message [e] encoded to. *)
Theorem encode_decode_encode
    (e : TaskAttemptFinishedEvent) (p : TaskAttemptFinishedProto) :
  toProto e = Ok p ->
  exists decoded,
    fromProto TaskAttemptFinishedEvent_empty p = Ok decoded
    /\ toProto decoded = Ok p.
Proof.
  intros Hp. eexists. split; [exact (fromProto_toProto e p Hp) |].
  unfold toProto in *.
  cbn [taskAttemptId state tezCounters dataEvents taGeneratedEvents creationTime
       allocationTime startTime finishTime creationCausalTA diagnostics error
       containerId nodeId nodeHttpAddress].
  destruct (dataEvents e) as [[| info infos] |];
    destruct (taGeneratedEvents e) as [[| event events] |]; exact Hp.
Qed.

(** X6.  A decoded event is a fixed point of the round trip: if [e] was
    decoded from some message into a fresh object and encodes to [p'], then
    decoding [p'] gives [e] again, with every field. *)
Theorem decoded_event_round_trips
    (e : TaskAttemptFinishedEvent) (p p' : TaskAttemptFinishedProto) :
  fromProto TaskAttemptFinishedEvent_empty p = Ok e ->
  toProto e = Ok p' ->
  fromProto TaskAttemptFinishedEvent_empty p' = Ok e.
Proof.
  intros He Hp'. rewrite (fromProto_toProto e p' Hp'). f_equal.
  destruct (fromProto_Ok _ e p He)
    as (taId & st & causal & err & counters & infos & events & container & node
        & _ & _ & _ & _ & _ & Hinfos & Hevents & _ & _ & ->).
  cbn [taskAttemptId vertexName creationTime allocationTime startTime finishTime
       creationCausalTA state diagnostics tezCounters error dataEvents
       taGeneratedEvents containerId nodeId inProgressLogsUrl completedLogsUrl
       nodeHttpAddress TaskAttemptFinishedEvent_empty] in *.
  assert (Hkept : forall (A B : Type) (dec : B -> result A) (entries : list B)
                    (l : option (list A)),
             (if Z.of_nat (List.length entries) >? 0
              then l' <- forEach dec entries ;; Ok (Some l')
              else Ok None) = Ok l ->
             match l with
             | Some (x :: more) => Some (x :: more)
             | Some [] => None
             | None => None
             end = l).
  { intros A B dec entries l Hl.
    destruct (Z.gtb_spec (Z.of_nat (List.length entries)) 0) as [Hpos | Hzero].
    - apply bind_Ok in Hl. destruct Hl as (l' & Hl' & Hl). injection Hl as <-.
      apply forEach_length in Hl'. destruct l' as [| x more]; [cbn in Hl'; lia |].
      reflexivity.
    - injection Hl as <-. reflexivity. }
  unfold proto_getDataEventsCount, proto_getDataEventsList,
    proto_getTaGeneratedEventsCount, proto_getTaGeneratedEventsList in *.
  rewrite (Hkept _ _ _ _ _ Hinfos), (Hkept _ _ _ _ _ Hevents).
  destruct (proto_hasDiagnostics p), (proto_hasNodeHttpAddress p); reflexivity.
Qed.

End RoundTripFacts.

Section StreamFacts.

Context {X : Collaborators} {G : GeneratedCodec}.

Lemma readRawVarint32_loop_suffix (input : InputStream) :
  forall offset res size rest,
    readRawVarint32_loop offset res input = Ok (size, rest) ->
    exists consumed, input = consumed ++ rest /\ consumed <> [].
Proof.
  induction input as [| b input IH]; intros offset res size rest Hread;
    cbn [readRawVarint32_loop] in Hread.
  - destruct (offset <? 32); [discriminate Hread |].
    destruct (offset <? 64); discriminate Hread.
  - destruct (offset <? 32).
    + destruct (Z.land b 128 =? 0).
      * injection Hread as _ <-. exists [b]. split; [reflexivity | discriminate].
      * apply IH in Hread. destruct Hread as (consumed & -> & _).
        exists (b :: consumed). split; [reflexivity | discriminate].
    + destruct (offset <? 64); [| discriminate Hread].
      destruct (Z.land b 128 =? 0).
      * injection Hread as _ <-. exists [b]. split; [reflexivity | discriminate].
      * apply IH in Hread. destruct Hread as (consumed & -> & _).
        exists (b :: consumed). split; [reflexivity | discriminate].
Qed.

Lemma parseDelimitedFrom_suffix (input rest : InputStream)
    (proto : TaskAttemptFinishedProto) :
  parseDelimitedFrom input = Ok (Some (proto, rest)) ->
  exists consumed, input = consumed ++ rest /\ consumed <> [].
Proof.
  destruct input as [| firstByte input]; [discriminate |].
  unfold parseDelimitedFrom. intros Hparse.
  apply bind_Ok in Hparse. destruct Hparse as ([size after] & Hsize & Hparse).
  apply bind_Ok in Hparse. destruct Hparse as (proto' & _ & Hparse).
  injection Hparse as _ <-. cbn [fst snd].
  assert (Hafter : exists prefix, input = prefix ++ after).
  { unfold readRawVarint32 in Hsize.
    destruct (Z.land firstByte 128 =? 0).
    - injection Hsize as _ <-. exists []. reflexivity.
    - apply readRawVarint32_loop_suffix in Hsize.
      destruct Hsize as (consumed & -> & _). exists consumed. reflexivity. }
  destruct Hafter as (prefix & ->).
  exists (firstByte :: prefix ++ firstn (Z.to_nat size) after).
  split; [| discriminate].
  cbn [app]. rewrite <- app_assoc, firstn_skipn. reflexivity.
Qed.

(** X7.  A successful [fromProtoStream] takes a non-empty prefix off the
    stream and leaves the rest untouched, so reading event after event from
    a finite stream comes to an end. *)
Theorem fromProtoStream_consumes
    (this e : TaskAttemptFinishedEvent) (input rest : InputStream) :
  fromProtoStream this input = Ok (e, rest) ->
  exists consumed,
    input = consumed ++ rest /\ consumed <> []
    /\ (List.length rest < List.length input)%nat.
Proof.
  intros He. unfold fromProtoStream in He.
  apply bind_Ok in He. destruct He as ([[proto rest'] |] & Hparse & He);
    [| discriminate He].
  apply bind_Ok in He. destruct He as (e' & _ & He). injection He as _ <-.
  destruct (parseDelimitedFrom_suffix _ _ _ Hparse) as (consumed & -> & Hnonempty).
  exists consumed. split; [reflexivity |]. split; [exact Hnonempty |].
  rewrite length_app. destruct consumed; [contradiction | cbn; lia].
Qed.

Lemma writeRawVarint32_loop_length (turns : nat) :
  forall value,
    0 <= value < 2 ^ (7 * (Z.of_nat turns + 1)) ->
    (1 <= List.length (writeRawVarint32_loop turns value) <= turns + 1)%nat.
Proof.
  induction turns as [| turns IH]; intros value Hvalue;
    rewrite writeRawVarint32_loop_eq; rewrite continue_test by lia.
  - change (2 ^ (7 * (Z.of_nat 0 + 1))) with 128 in Hvalue.
    destruct (Z.ltb_spec value 128) as [_ | Hge]; [cbn; lia | lia].
  - destruct (Z.ltb_spec value 128) as [_ | Hge]; [cbn; lia |].
    cbn [List.length].
    assert (Hrest : 0 <= Z.shiftr value 7 < 2 ^ (7 * (Z.of_nat turns + 1))).
    { rewrite Z.shiftr_div_pow2 by lia. change (2 ^ 7) with 128.
      split; [apply Z.div_pos; lia |].
      apply Z.div_lt_upper_bound; [lia |].
      replace (7 * (Z.of_nat (S turns) + 1)) with (7 + 7 * (Z.of_nat turns + 1))
        in Hvalue by lia.
      rewrite Z.pow_add_r in Hvalue by lia. change (2 ^ 7) with 128 in Hvalue. lia. }
    specialize (IH _ Hrest). lia.
Qed.

Lemma writeRawVarint32_length (value : Z) :
  (1 <= List.length (writeRawVarint32 value) <= 5)%nat.
Proof.
  unfold writeRawVarint32. apply (writeRawVarint32_loop_length 4).
  assert (Hmod : 0 <= value mod 2 ^ 32 < 2 ^ 32) by (apply Z.mod_pos_bound; reflexivity).
  change (2 ^ (7 * (Z.of_nat 4 + 1))) with 34359738368.
  change (2 ^ 32) with 4294967296 in *. lia.
Qed.

(** X8.  [toProtoStream] only appends.  What was on the stream stays in
    front; when encoding throws nothing is added, and otherwise the bytes
    added are the serialized message behind a length prefix of one to five
    bytes. *)
Theorem toProtoStream_appends (e : TaskAttemptFinishedEvent) (outputStream : OutputStream) :
  exists written,
    snd (toProtoStream e outputStream) = outputStream ++ written
    /\ (forall ex, toProto e = Throw ex ->
          fst (toProtoStream e outputStream) = Throw ex /\ written = [])
    /\ (forall p, toProto e = Ok p ->
          fst (toProtoStream e outputStream) = Ok tt
          /\ exists prefix,
               written = prefix ++ toByteArray p
               /\ (1 <= List.length prefix <= 5)%nat).
Proof.
  unfold toProtoStream. destruct (toProto e) as [p | ex].
  - exists (writeRawVarint32 (getSerializedSize p) ++ toByteArray p).
    split; [reflexivity |]. split; [discriminate |].
    intros p' Hp'. injection Hp' as <-. split; [reflexivity |].
    exists (writeRawVarint32 (getSerializedSize p)).
    split; [reflexivity | apply writeRawVarint32_length].
  - exists []. split; [cbn [snd]; rewrite app_nil_r; reflexivity |].
    split; [| discriminate].
    intros ex' Hex. injection Hex as <-. split; reflexivity.
Qed.

(** X9.  Frames do not run into one another: after two events were written
    to a stream one after the other, with a parser that inverts the
    serializer, the first read decodes the first message and leaves the
    second frame, the second read decodes the second message and leaves
    what followed, and on the emptied stream the next read throws
    "No data found in stream". *)
Theorem two_events_on_a_stream {PI : ParserInverts}
    (e1 e2 this1 this2 : TaskAttemptFinishedEvent)
    (p1 p2 : TaskAttemptFinishedProto) (rest : InputStream) :
  toProto e1 = Ok p1 -> toProto e2 = Ok p2 ->
  getSerializedSize p1 < 2 ^ 31 -> getSerializedSize p2 < 2 ^ 31 ->
  let written := snd (toProtoStream e2 (snd (toProtoStream e1 []))) in
  exists second,
    fromProtoStream this1 (written ++ rest)
    = (d <- fromProto this1 p1 ;; Ok (d, second ++ rest))
    /\ second = snd (toProtoStream e2 [])
    /\ fromProtoStream this2 (second ++ rest)
       = (d <- fromProto this2 p2 ;; Ok (d, rest))
    /\ fromProtoStream this2 []
       = Throw (IOException "No data found in stream").
Proof.
  intros Hp1 Hp2 Hsize1 Hsize2 written. subst written.
  unfold toProtoStream. rewrite Hp1, Hp2. cbn [snd].
  exists (writeDelimitedTo p2 []).
  split; [| split; [reflexivity | split; [| reflexivity]]].
  - replace (writeDelimitedTo p2 (writeDelimitedTo p1 []) ++ rest)
      with (writeDelimitedTo p1 [] ++ (writeDelimitedTo p2 [] ++ rest)).
    + unfold fromProtoStream.
      rewrite (parseDelimitedFrom_writeDelimitedTo p1 _ Hsize1). reflexivity.
    + unfold writeDelimitedTo. cbn [app]. rewrite <- !app_assoc. reflexivity.
  - unfold fromProtoStream.
    rewrite (parseDelimitedFrom_writeDelimitedTo p2 _ Hsize2). reflexivity.
Qed.

End StreamFacts.

(** * The text form *)

Section PrintingFacts.

Context {X : Collaborators} {P : Printers X}.

(** X10.  [toString] dereferences the state: it throws a
    [NullPointerException] exactly for the events whose state is unset, such
    as one fresh from the empty constructor, and returns a text for all
    others, whatever else is unset. *)
Theorem toString_throws_iff_state_unset (e : TaskAttemptFinishedEvent) :
  (toString e = Throw NullPointerException <-> getState e = None)
  /\ (getState e <> None -> exists text, toString e = Ok text)
  /\ toString TaskAttemptFinishedEvent_empty = Throw NullPointerException.
Proof.
  unfold toString, getState. split; [| split].
  - destruct (state e) as [st |]; cbn [deref bind]; split;
      intros H; (discriminate H || reflexivity).
  - intros Hset. destruct (state e) as [st |]; [| elim Hset; reflexivity].
    cbn [deref bind]. eexists. reflexivity.
  - reflexivity.
Qed.

(** X11.  The text of a succeeded attempt does not show its counters: two
    events in state SUCCEEDED that differ in their counters only have the
    same text. *)
Theorem toString_of_succeeded_omits_counters
    taId vertex creation allocation start finish causal diag err infos events
    container node running done http (counters counters' : option TezCounters) :
  toString
    {| taskAttemptId := taId; vertexName := vertex; creationTime := creation;
       allocationTime := allocation; startTime := start; finishTime := finish;
       creationCausalTA := causal; state := Some TaskAttemptState_SUCCEEDED;
       diagnostics := diag; tezCounters := counters; error := err;
       dataEvents := infos; taGeneratedEvents := events; containerId := container;
       nodeId := node; inProgressLogsUrl := running; completedLogsUrl := done;
       nodeHttpAddress := http |}
  = toString
      {| taskAttemptId := taId; vertexName := vertex; creationTime := creation;
         allocationTime := allocation; startTime := start; finishTime := finish;
         creationCausalTA := causal; state := Some TaskAttemptState_SUCCEEDED;
         diagnostics := diag; tezCounters := counters'; error := err;
         dataEvents := infos; taGeneratedEvents := events; containerId := container;
         nodeId := node; inProgressLogsUrl := running; completedLogsUrl := done;
         nodeHttpAddress := http |}.
Proof.
  unfold toString. cbn [state isNotSucceeded].
  rewrite Nat.eqb_refl. reflexivity.
Qed.

End PrintingFacts.



Lemma single_spaced_tail (a : ascii) (s : string) :
  (forall i c, String.get i (String a s) = Some c -> isWhitespace c = true ->
               c = " "%char
               /\ forall d, String.get (S i) (String a s) = Some d ->
                            isWhitespace d = false) ->
  forall i c, String.get i s = Some c -> isWhitespace c = true ->
              c = " "%char
              /\ forall d, String.get (S i) s = Some d -> isWhitespace d = false.
Proof.
  intros Hspaced i c Hc Hws. exact (Hspaced (S i) c Hc Hws).
Qed.

Lemma replaceAll_newline_without_newline (s : string) :
  (forall i c, String.get i s = Some c -> isWhitespace c = true -> c = " "%char) ->
  replaceAll_newline s = s.
Proof.
  induction s as [| a s IH]; intros Hspaced; cbn [replaceAll_newline]; [reflexivity |].
  destruct (Nat.eqb_spec (nat_of_ascii a) 10) as [Hnl | _].
  - assert (Hws : isWhitespace a = true) by (unfold isWhitespace; rewrite Hnl; reflexivity).
    rewrite (Hspaced 0%nat a eq_refl Hws) in Hnl. discriminate Hnl.
  - f_equal. apply IH. intros i c Hc Hws. exact (Hspaced (S i) c Hc Hws).
Qed.

Lemma replaceAll_whitespace_run_single_spaced (s : string) :
  forall inRun,
    (forall i c, String.get i s = Some c -> isWhitespace c = true ->
                 c = " "%char
                 /\ forall d, String.get (S i) s = Some d -> isWhitespace d = false) ->
    (inRun = true -> forall c, String.get 0 s = Some c -> isWhitespace c = false) ->
    replaceAll_whitespace_run inRun s = s.
Proof.
  induction s as [| a s IH]; intros inRun Hspaced Hfirst;
    cbn [replaceAll_whitespace_run]; [reflexivity |].
  pose proof (single_spaced_tail a s Hspaced) as Htail.
  destruct (isWhitespace a) eqn:Ha.
  - destruct inRun.
    + rewrite (Hfirst eq_refl a eq_refl) in Ha. discriminate Ha.
    + destruct (Hspaced 0%nat a eq_refl Ha) as [-> Hnext].
      f_equal. apply IH; [exact Htail |].
      intros _ c Hc. exact (Hnext c Hc).
  - f_equal. apply IH; [exact Htail | discriminate].
Qed.

(** X13.  A counters text that is single spaced already (every whitespace
    character a space, no whitespace after a space) goes through the two
    [replaceAll]s unchanged; in particular, applying them twice is the same
    as applying them once. *)
Theorem counters_text_unchanged_when_single_spaced (counters : string) :
  (forall i c,
     String.get i counters = Some c -> isWhitespace c = true ->
     c = " "%char
     /\ forall d, String.get (S i) counters = Some d -> isWhitespace d = false) ->
  replaceAll_whitespace (replaceAll_newline counters) = counters.
Proof.
  intros Hspaced.
  rewrite replaceAll_newline_without_newline
    by (intros i c Hc Hws; exact (proj1 (Hspaced i c Hc Hws))).
  unfold replaceAll_whitespace.
  apply replaceAll_whitespace_run_single_spaced; [exact Hspaced | discriminate].
Qed.

(** * The further properties on the samples *)

Module ExampleRuns.

Import Example.

(** Decoding the sample message into the sample event, an object in use:
    the vertex name, the diagnostics and the data events of the old event
    are still there. *)
Lemma fromProto_keeps_unassigned_fields_witness :
  exists e,
    fromProto finishedAttempt (message 0 10 50 100 150 None) = Ok e
    /\ vertexName e = Some "Map 1"%string
    /\ getDiagnostics e = Some "container lost"%string
    /\ getDataEvents e = Some [1; 2].
Proof.
  eexists. split; [vm_compute; reflexivity |].
  destruct (fromProto_keeps_unassigned_fields finishedAttempt _
              (message 0 10 50 100 150 None) eq_refl)
    as (Hvertex & _ & Hdiag & _ & _ & Hinfos & _).
  exact (conj Hvertex (conj (Hdiag eq_refl) (Hinfos eq_refl))).
Defined.

(** The message of the sample event has two data events and no generated
    event. *)
Lemma decoded_lists_are_null_or_nonempty_witness :
  exists p e,
    toProto finishedAttempt = Ok p
    /\ fromProto TaskAttemptFinishedEvent_empty p = Ok e
    /\ getDataEvents e = Some [1; 2]
    /\ getTAGeneratedEvents e = None
    /\ ([1; 2] <> [] /\ 2 = proto_getDataEventsCount p)
    /\ proto_getTaGeneratedEventsCount p = 0.
Proof.
  eexists. eexists. split; [vm_compute; reflexivity |].
  split; [vm_compute; reflexivity |].
  split; [reflexivity |]. split; [reflexivity |].
  match goal with
  | |- context [proto_getDataEventsCount ?p] =>
      exact (decoded_lists_are_null_or_nonempty (X := collaborators) _ p eq_refl)
  end.
Defined.

Lemma decode_then_encode_keeps_plain_fields_witness :
  exists e p',
    fromProto TaskAttemptFinishedEvent_empty
      (message 1 10 50 100 150 (Some "CONTAINER_EXITED"%string)) = Ok e
    /\ toProto e = Ok p'
    /\ proto_getState p' = 1
    /\ proto_getFinishTime p' = 150
    /\ errorEnum_ p' = Some "CONTAINER_EXITED"%string.
Proof.
  eexists. eexists. split; [vm_compute; reflexivity |].
  split; [vm_compute; reflexivity |].
  destruct (decode_then_encode_keeps_plain_fields (X := collaborators)
              TaskAttemptFinishedEvent_empty _
              (message 1 10 50 100 150 (Some "CONTAINER_EXITED"%string)) _
              eq_refl eq_refl)
    as (_ & Hstate & _ & _ & _ & Hfinish & _ & Herr & _).
  exact (conj Hstate (conj Hfinish (Herr eq_refl))).
Defined.

Lemma toProto_returns_iff_witness :
  (exists p, toProto bareAttempt = Ok p)
  <-> getTaskAttemptID bareAttempt <> None /\ getState bareAttempt <> None.
Proof.
  exact (toProto_returns_iff (X := collaborators) bareAttempt
           (fun c => ex_intro _ c eq_refl)
           (fun d => ex_intro _ d eq_refl)
           (fun ev => ex_intro _ ev eq_refl)).
Defined.

Lemma encode_decode_encode_witness :
  exists p decoded,
    toProto finishedAttempt = Ok p
    /\ fromProto TaskAttemptFinishedEvent_empty p = Ok decoded
    /\ toProto decoded = Ok p.
Proof.
  eexists.
  destruct (encode_decode_encode (Inv := ExampleFacts.converters_invert)
              finishedAttempt _ eq_refl) as (decoded & Hdecoded & Hagain).
  exists decoded. exact (conj eq_refl (conj Hdecoded Hagain)).
Defined.

Lemma decoded_event_round_trips_witness :
  exists e p',
    fromProto TaskAttemptFinishedEvent_empty (message 1 10 50 100 150 None) = Ok e
    /\ toProto e = Ok p'
    /\ fromProto TaskAttemptFinishedEvent_empty p' = Ok e.
Proof.
  eexists. eexists. split; [vm_compute; reflexivity |].
  split; [vm_compute; reflexivity |].
  exact (decoded_event_round_trips (Inv := ExampleFacts.converters_invert)
           _ (message 1 10 50 100 150 None) _ eq_refl eq_refl).
Defined.

(** Reading the frame of the sample event off a stream that goes on with
    three more bytes. *)
Lemma fromProtoStream_consumes_witness :
  exists e consumed,
    fromProtoStream (G := codec) TaskAttemptFinishedEvent_empty
      (snd (toProtoStream (G := codec) bareAttempt []) ++ [1; 2; 3]) = Ok (e, [1; 2; 3])
    /\ snd (toProtoStream (G := codec) bareAttempt []) ++ [1; 2; 3]
       = consumed ++ [1; 2; 3]
    /\ consumed <> [].
Proof.
  assert (Hread : exists e,
             fromProtoStream (G := codec) TaskAttemptFinishedEvent_empty
               (snd (toProtoStream (G := codec) bareAttempt []) ++ [1; 2; 3])
             = Ok (e, [1; 2; 3])) by (eexists; vm_compute; reflexivity).
  destruct Hread as [e Hread].
  destruct (fromProtoStream_consumes (G := codec) _ _ _ _ Hread)
    as (consumed & Hsplit & Hnonempty & _).
  exists e, consumed. exact (conj Hread (conj Hsplit Hnonempty)).
Defined.

Lemma toProtoStream_appends_witness :
  exists written prefix,
    snd (toProtoStream (G := codec) bareAttempt [9]) = [9] ++ written
    /\ written = prefix ++ serialize (message 0 0 0 0 0 None)
    /\ (1 <= List.length prefix <= 5)%nat.
Proof.
  destruct (toProtoStream_appends (G := codec) bareAttempt [9])
    as (written & Hwritten & _ & Hok).
  destruct (Hok (message 0 0 0 0 0 None) eq_refl) as (_ & prefix & Hprefix & Hlength).
  exists written, prefix. exact (conj Hwritten (conj Hprefix Hlength)).
Defined.

Lemma two_events_on_a_stream_witness :
  exists second,
    fromProtoStream (G := codec) TaskAttemptFinishedEvent_empty
      (snd (toProtoStream (G := codec) finishedAttempt
              (snd (toProtoStream (G := codec) bareAttempt []))) ++ [])
    = (d <- fromProto TaskAttemptFinishedEvent_empty (message 0 0 0 0 0 None) ;;
       Ok (d, second ++ []))
    /\ second = snd (toProtoStream (G := codec) finishedAttempt []).
Proof.
  destruct (toProto finishedAttempt) as [p2 |] eqn:Hp2; [| discriminate Hp2].
  destruct (two_events_on_a_stream (PI := ExampleFacts.parser_inverts)
              bareAttempt finishedAttempt
              TaskAttemptFinishedEvent_empty TaskAttemptFinishedEvent_empty
              (message 0 0 0 0 0 None) p2 [] eq_refl Hp2 eq_refl)
    as (second & Hfirst & Hsecond & _).
  - vm_compute in Hp2. injection Hp2 as <-. reflexivity.
  - exists second. exact (conj Hfirst Hsecond).
Defined.

Lemma toString_throws_iff_state_unset_witness :
  exists text, toString (P := ExampleText.printers) bareAttempt = Ok text.
Proof.
  refine (proj1 (proj2 (toString_throws_iff_state_unset
                          (P := ExampleText.printers) bareAttempt)) _).
  discriminate.
Defined.


Lemma counters_text_unchanged_when_single_spaced_witness :
  replaceAll_whitespace (replaceAll_newline "COUNT=7, BYTES=9")
  = "COUNT=7, BYTES=9"%string.
Proof.
  apply counters_text_unchanged_when_single_spaced.
  intros i c Hc Hws.
  do 16 (destruct i as [| i];
         [cbn in Hc; injection Hc as <-;
          first [discriminate Hws
                | split; [reflexivity | intros d Hd; cbn in Hd; injection Hd as <-; reflexivity]]
         |]).
  discriminate Hc.
Defined.

End ExampleRuns.
